(** * PipeLLM: the per-shell session daemon and its client

    A shallow embedding of [PipeLLM.py].  The program is one script that runs
    either as a client (one invocation of the command-line tool) or, when the
    environment variable [LLM_DAEMON] is set, as the background daemon that
    keeps the conversation context of one interactive shell in memory.

    What is modelled, and how:
    - values that travel on the local channel are the Python values
      [json.loads] returns ([json]); a Python [dict] is a [gmap string json],
      so that two objects are equal exactly when they have the same fields;
    - the library calls the script makes ([reader.readline], [json.loads],
      [writer.write]/[drain], [os.kill], [os._exit], [atexit], the socket
      name spaces) are outside the script; their outcomes are inputs of the
      model ([read_event], [w_fault], what [os.kill] finds at each poll) or
      are given by the small model of the operating system given below;
    - a message travels as the line [json.dumps] writes for it, and a
      stream reader hands over no line longer than its limit of 64 KiB: the
      length of the line is computed ([dumps_length]), and [json.loads] is
      taken to give back the value that was written;
    - a Python [str] is a [string], its characters standing for the code
      points below 256; an [int] is a [Z]; a [float] is a binary64 [float];
    - exceptions are values of [exn]; a call that can raise returns a
      [result]; client code, which threads the world through many calls,
      runs in the state-and-exception monad [Client]. *)

From stdpp Require Import gmap strings list pretty.
From Stdlib Require Import ZArith Floats Ascii.

#[local] Set Warnings "-register-all".
#[local] Open Scope Z_scope.

(** ** Python values and exceptions *)

(** The values [json.loads] produces: [None], [bool], [int], [float], [str],
    [list] and [dict] (keys of a JSON object are always strings). *)
Inductive json : Type :=
| JNull
| JBool (b : bool)
| JInt (z : Z)
| JFloat (f : float)
| JStr (s : string)
| JArr (l : list json)
| JObj (m : gmap string json).

(** The exception classes the script names or can meet.  [ValueError] stands
    for itself and for its subclasses [json.JSONDecodeError] and
    [UnicodeDecodeError]; [AddressInUse] is the [OSError] a [bind] on a taken
    address raises. *)
Inductive exn : Type :=
| ValueError
| AttributeError
| TypeError
| ConnectionResetError
| BrokenPipeError
| IncompleteReadError
| ConnectionRefusedError
| FileNotFoundError
| ProcessLookupError
| PermissionError
| AddressInUse
| KeyboardInterrupt.

Inductive result (A : Type) : Type :=
| Ok (a : A)
| Raise (e : exn).
Arguments Ok {A} a.
Arguments Raise {A} e.

(** Python truth value, [bool(v)], as used by [if not data] and [if msg]. *)
Definition truthy (v : json) : bool :=
  match v with
  | JNull => false
  | JBool b => b
  | JInt z => negb (z =? 0)
  | JFloat f => negb (PrimFloat.eqb f 0%float)
  | JStr s => match s with EmptyString => false | String _ _ => true end
  | JArr l => match l with [] => false | _ :: _ => true end
  | JObj m => negb (bool_decide (size m = 0%nat))
  end.

(** [v.get(key, default)]: only a [dict] has a [get] method. *)
Definition dict_get (v : json) (key : string) (dflt : json) : result json :=
  match v with
  | JObj m => Ok (default dflt (m !! key))
  | _ => Raise AttributeError
  end.

(** [v == s] for a string literal [s]: true only for the [str] with the same
    characters. *)
Definition eq_str (v : json) (s : string) : bool :=
  match v with
  | JStr s' => bool_decide (s' = s)
  | _ => false
  end.

(** ** Session identity *)

Definition INFO : string := "PipeLLM by Ben Kantor, Beta 2".
Definition DAEMON_ENV : string := "LLM_DAEMON".

(** ["\0llm-daemon-"]: the first character is NUL, which places the address
    in the abstract socket name space. *)
Definition SOCKET_PREFIX : string := String Ascii.zero "llm-daemon-".

(** [str(n)] for an [int]: decimal digits, with a leading minus sign for a
    negative number. *)
Definition str_int (n : Z) : string := pretty n.

Definition get_socket_path (shell_pid : Z) : string :=
  SOCKET_PREFIX +:+ str_int shell_pid.

Record State : Type := mkState { pid : Z; context : json }.

(** [State(pid=shell_pid)]: the context defaults to the empty string. *)
Definition State_new (shell_pid : Z) : State :=
  {| pid := shell_pid; context := JStr "" |}.

(** ** Wire protocol *)

(** One line as [reader.readline] hands it over, seen through
    [json.loads(line.decode())]: it decodes to a value, or decoding raises
    [ValueError]. *)
Inductive line : Type :=
| Decodes (v : json)
| Undecodable.

Definition json_loads (l : line) : result json :=
  match l with
  | Decodes v => Ok v
  | Undecodable => Raise ValueError
  end.

(** What successive calls of [reader.readline] yield on one connection: a
    line, or an exception.  The end of the list is the end of the stream,
    where [readline] returns [b""]. *)
Inductive read_event : Type :=
| Data (l : line)
| ReadError (e : exn).

Definition reader : Type := list read_event.

(** The writing side of a connection: the objects delivered to the peer so
    far (oldest first), the exception [write]/[drain] raise when the peer is
    gone, and whether [close] has been called. *)
Record writer : Type := mkWriter {
  w_sent : list json;
  w_fault : option exn;
  w_closing : bool
}.

Definition writer_new : writer :=
  {| w_sent := []; w_fault := None; w_closing := false |}.

Definition writer_close (w : writer) : writer :=
  {| w_sent := w_sent w; w_fault := w_fault w; w_closing := true |}.

(** The [except (BrokenPipeError, ConnectionResetError)] clause of
    [send_json]. *)
Definition send_catches (e : exn) : bool :=
  match e with
  | BrokenPipeError | ConnectionResetError => true
  | _ => false
  end.

(** The [except (BrokenPipeError, ConnectionResetError,
    asyncio.IncompleteReadError)] clause of [recv_json], which is also the
    one of [daemon_handle]. *)
Definition recv_catches (e : exn) : bool :=
  match e with
  | BrokenPipeError | ConnectionResetError | IncompleteReadError => true
  | _ => false
  end.

(** The writer after [obj] has been written and drained. *)
Definition writer_push (w : writer) (obj : json) : writer :=
  {| w_sent := w_sent w ++ [obj]; w_fault := w_fault w; w_closing := w_closing w |}.

Definition send_json (w : writer) (obj : json) : result bool * writer :=
  match w_fault w with
  | None => (Ok true, writer_push w obj)
  | Some e => (if send_catches e then Ok false else Raise e, w)
  end.

(** [recv_json] on the next read event; [None] is Python's [None]. *)
Definition recv_json (ev : option read_event) : result (option json) :=
  match ev with
  | None => Ok None
  | Some (Data l) =>
      match json_loads l with
      | Ok v => Ok (Some v)
      | Raise e => if recv_catches e then Ok None else Raise e
      end
  | Some (ReadError e) => if recv_catches e then Ok None else Raise e
  end.

(** The protocol's messages, as the script builds them. *)
Definition req_get : json := JObj {[ "action" := JStr "get" ]}.
Definition req_clear : json := JObj {[ "action" := JStr "clear" ]}.
Definition req_set (data : json) : json :=
  JObj {[ "action" := JStr "set"; "data" := data ]}.
Definition resp_ok : json := JObj {[ "status" := JStr "ok" ]}.
Definition resp_context (ctx : json) : json :=
  JObj {[ "type" := JStr "context"; "data" := ctx ]}.

(** The three requests of the protocol, and the messages that carry them. *)
Inductive request : Type :=
| ReqGet
| ReqSet (data : json)
| ReqClear.

Definition encode (r : request) : json :=
  match r with
  | ReqGet => req_get
  | ReqSet d => req_set d
  | ReqClear => req_clear
  end.

(** The response to a request, and the context it leaves, when requests
    are taken one after the other. *)
Definition respond (ctx : json) (r : request) : json * json :=
  match r with
  | ReqGet => (resp_context ctx, ctx)
  | ReqSet d => (resp_ok, d)
  | ReqClear => (resp_ok, JStr "")
  end.

Fixpoint respond_all (ctx : json) (rs : list request) : list json * json :=
  match rs with
  | [] => ([], ctx)
  | r :: rs' =>
      let '(v, ctx') := respond ctx r in
      let '(vs, ctx'') := respond_all ctx' rs' in
      (v :: vs, ctx'')
  end.

(** ** Lines on the wire *)

Definition DQUOTE : ascii := ascii_of_nat 34.
Definition BACKSLASH : ascii := ascii_of_nat 92.

(** One digit of [format(n, "04x")]. *)
Definition hex_digit (n : nat) : ascii :=
  ascii_of_nat (if (n <? 10)%nat then 48 + n else 87 + n).

(** What [json.dumps] writes for one character of a [str] ([ensure_ascii]
    is on): the printable ASCII characters stand for themselves, except the
    double quote and the backslash; seven characters have a two-letter
    escape; every other one is written [\u00xx]. *)
Definition escape_char (c : ascii) : string :=
  let n := nat_of_ascii c in
  if ((n =? 34) || (n =? 92))%nat then String BACKSLASH (String c "")
  else if (n =? 8)%nat then String BACKSLASH "b"
  else if (n =? 12)%nat then String BACKSLASH "f"
  else if (n =? 10)%nat then String BACKSLASH "n"
  else if (n =? 13)%nat then String BACKSLASH "r"
  else if (n =? 9)%nat then String BACKSLASH "t"
  else if ((32 <=? n) && (n <=? 126))%nat then String c ""
  else String BACKSLASH
         (String "u" (String "0" (String "0"
            (String (hex_digit (n / 16)) (String (hex_digit (n mod 16)) ""))))).

Fixpoint escape (s : string) : string :=
  match s with
  | EmptyString => ""
  | String c s' => escape_char c +:+ escape s'
  end.

(** [json.encoder.encode_basestring_ascii]: the text of a [str], between
    double quotes. *)
Definition py_encode_basestring_ascii (s : string) : string :=
  String DQUOTE (escape s +:+ String DQUOTE "").

(** [floatstr] of [json.encoder]: the text of a [float]; [repr] is
    [float.__repr__]. *)
Definition floatstr (repr : float -> string) (o : float) : string :=
  if negb (PrimFloat.eqb o o) then "NaN"
  else if PrimFloat.eqb o infinity then "Infinity"
  else if PrimFloat.eqb o neg_infinity then "-Infinity"
  else repr o.

Definition len (s : string) : Z := Z.of_nat (String.length s).

(** [len(json.dumps(v))]: items are separated by [", "], a key and its
    value by [": "]; the order of the items plays no role for the length.
    With the two brackets, a list or object that is not empty takes two
    characters more for each item than the items themselves.  All
    characters written are ASCII, so this is also the number of bytes of
    the line, its newline left out. *)
Fixpoint dumps_length (repr : float -> string) (v : json) : Z :=
  match v with
  | JNull => 4
  | JBool b => if b then 4 else 5
  | JInt z => len (str_int z)
  | JFloat f => len (floatstr repr f)
  | JStr s => len (py_encode_basestring_ascii s)
  | JArr l =>
      match l with
      | [] => 2
      | _ => foldr (fun x n => dumps_length repr x + 2 + n) 0 l
      end
  | JObj m =>
      if bool_decide (m = ∅) then 2
      else map_fold (fun k x n =>
                       len (py_encode_basestring_ascii k) + 2
                       + dumps_length repr x + 2 + n) 0 m
  end.

(** [_DEFAULT_LIMIT] of [asyncio.streams], [2 ** 16]: the longest line,
    its newline not counted, that [readline] hands over.  Neither
    [open_unix_connection] nor [start_unix_server] is given another
    limit. *)
Definition DEFAULT_LIMIT : Z := 65536.

Definition line_fits (repr : float -> string) (obj : json) : bool :=
  bool_decide (dumps_length repr obj <= DEFAULT_LIMIT).

(** What [readline] yields at the other end for the line [send_json] has
    written for [obj]: the line, which decodes to [obj], or [ValueError]
    when the line is longer than the limit (the line is then dropped from
    the buffer). *)
Definition received (repr : float -> string) (obj : json) : read_event :=
  if line_fits repr obj then Data (Decodes obj) else ReadError ValueError.

(** A text of [n] times the character [c]. *)
Definition text_of (n : Z) (c : ascii) : string := Z.iter n (String c) "".

(** ** Daemon: one connection *)

Inductive outcome : Type :=
| Returned
| Raised (e : exn).

(** The result of one pass through the body of the [while] loop of
    [daemon_handle]. *)
Inductive iteration : Type :=
| Next (w : writer) (st : State)
| Break (w : writer) (st : State)
| Throw (e : exn) (w : writer) (st : State).

(** [send_json] called for its effect, the returned flag dropped.  A write
    that fails has lost the connection, and the transport hands the
    exception to the stream reader as well: the [readline] of the next
    iteration raises it, [recv_json] returns [None] and the loop is left,
    whatever the peer had still sent. *)
Definition send_then (w : writer) (obj : json) (st : State) : iteration :=
  match send_json w obj with
  | (Ok true, w') => Next w' st
  | (Ok false, w') => Break w' st
  | (Raise e, w') => Throw e w' st
  end.

(** Lines 306-314: the dispatch on [action]; there is no [else] branch. *)
Definition dispatch (data : json) (w : writer) (st : State) : iteration :=
  match dict_get data "action" JNull with
  | Raise e => Throw e w st
  | Ok action =>
      if eq_str action "get" then
        send_then w (resp_context (context st)) st
      else if eq_str action "set" then
        match dict_get data "data" (JStr "") with
        | Raise e => Throw e w st
        | Ok d => send_then w resp_ok {| pid := pid st; context := d |}
        end
      else if eq_str action "clear" then
        send_then w resp_ok {| pid := pid st; context := JStr "" |}
      else Next w st
  end.

(** Lines 302-314: one iteration, on the event the next [readline] meets. *)
Definition loop_body (ev : read_event) (w : writer) (st : State) : iteration :=
  match recv_json (Some ev) with
  | Raise e => Throw e w st
  | Ok None => Break w st
  | Ok (Some data) => if truthy data then dispatch data w st else Break w st
  end.

(** The [while not reader.at_eof()] loop.  At the end of the stream either
    [at_eof] is already true, or [readline] returns [b""] and the loop
    breaks: both leave the loop. *)
Fixpoint serve_loop (r : reader) (w : writer) (st : State)
  : outcome * writer * State :=
  match r with
  | [] => (Returned, w, st)
  | ev :: r' =>
      match loop_body ev w st with
      | Next w' st' => serve_loop r' w' st'
      | Break w' st' => (Returned, w', st')
      | Throw e w' st' => (Raised e, w', st')
      end
  end.

(** The [finally] clause: close the writer unless it is closing already.
    The peer of a writer that has met no fault is taken to read what was
    written to the end, so that [wait_closed] returns. *)
Definition finally_close (w : writer) : writer :=
  if w_closing w then w else writer_close w.

(** [daemon_handle]: the loop, the [except] clause that swallows the three
    transport errors, and the [finally] clause. *)
Definition daemon_handle (r : reader) (w : writer) (st : State)
  : outcome * writer * State :=
  match serve_loop r w st with
  | (Returned, w', st') => (Returned, finally_close w', st')
  | (Raised e, w', st') =>
      (if recv_catches e then Returned else Raised e, finally_close w', st')
  end.

(** A request names an unsupported action when its [action] field is none
    of ["get"], ["set"], ["clear"] (a missing field reads as [None]). *)
Definition unsupported (m : gmap string json) : Prop :=
  let action := default JNull (m !! "action") in
  eq_str action "get" = false /\ eq_str action "set" = false
  /\ eq_str action "clear" = false.

(** ** Daemon: the event loop and its connections *)

(** A connection accepted by the server: what is still to be read, the
    writing side, and the way the handler task ended (if it has). *)
Record connection : Type := mkConn {
  c_reader : reader;
  c_writer : writer;
  c_ended : option outcome
}.

Definition connection_new (r : reader) : connection :=
  {| c_reader := r; c_writer := writer_new; c_ended := None |}.

(** The daemon while it serves: the one shared [State], the handler tasks,
    and the exit status once the process is gone.  An exception that leaves
    a handler ends that task only; the event loop reports it and goes on. *)
Record server : Type := mkServer {
  s_state : State;
  s_conns : list connection;
  s_exit : option Z
}.

(** How a handler task ends: the [except] and [finally] clauses of
    [daemon_handle]. *)
Definition end_task (o : outcome) (w : writer) : connection :=
  {| c_reader := [];
     c_writer := finally_close w;
     c_ended := Some match o with
                     | Returned => Returned
                     | Raised e => if recv_catches e then Returned else Raised e
                     end |}.

(** One turn of the handler task of a connection: from one suspension in
    [recv_json] to the next.  Nothing else runs in between, the event loop
    being single-threaded. *)
Definition task_step (c : connection) (st : State) : connection * State :=
  match c_ended c with
  | Some _ => (c, st)
  | None =>
      match c_reader c with
      | [] => (end_task Returned (c_writer c), st)
      | ev :: r' =>
          match loop_body ev (c_writer c) st with
          | Next w' st' =>
              ({| c_reader := r'; c_writer := w'; c_ended := None |}, st')
          | Break w' st' => (end_task Returned w', st')
          | Throw e w' st' => (end_task (Raised e) w', st')
          end
      end
  end.

(** The event loop gives the next turn to the task of connection [i]. *)
Definition server_step (i : nat) (s : server) : server :=
  match s_exit s, s_conns s !! i with
  | None, Some c =>
      let '(c', st') := task_step c (s_state s) in
      {| s_state := st'; s_conns := <[i := c']> (s_conns s); s_exit := None |}
  | _, _ => s
  end.

(** A schedule is the order in which the tasks get their turns. *)
Definition server_run (sched : list nat) (s : server) : server :=
  foldl (fun s i => server_step i s) s sched.

(** The task of a connection, given [n] turns in a row. *)
Fixpoint task_run (n : nat) (c : connection) (st : State) : connection * State :=
  match n with
  | O => (c, st)
  | S n' => let '(c', st') := task_step c st in task_run n' c' st'
  end.

(** ** The daemon process and the socket name spaces *)

(** The part of the operating system the daemon touches: the socket files
    of the file system and the names bound in the abstract name space.  A
    name of the abstract name space (first character NUL) exists exactly as
    long as a socket is bound to it; a socket file stays until it is
    unlinked. *)
Record os : Type := mkOS {
  fs_sockets : gset string;
  abstract_bound : gset string
}.

Fixpoint has_nul (s : string) : bool :=
  match s with
  | EmptyString => false
  | String c s' => bool_decide (c = Ascii.zero) || has_nul s'
  end.

Definition is_abstract (path : string) : bool :=
  match path with
  | String c _ => bool_decide (c = Ascii.zero)
  | EmptyString => false
  end.

(** [os.path.exists]: a path with an embedded NUL makes [os.stat] raise
    [ValueError], which [exists] turns into [False]. *)
Definition os_path_exists (o : os) (path : string) : bool :=
  if has_nul path then false else bool_decide (path ∈ fs_sockets o).

Definition os_unlink (o : os) (path : string) : result os :=
  if has_nul path then Raise ValueError
  else if bool_decide (path ∈ fs_sockets o) then
    Ok {| fs_sockets := fs_sockets o ∖ {[path]};
          abstract_bound := abstract_bound o |}
  else Raise FileNotFoundError.

(** The exceptions of this model that are subclasses of [OSError]. *)
Definition is_OSError (e : exn) : bool :=
  match e with
  | ConnectionResetError | BrokenPipeError | ConnectionRefusedError
  | FileNotFoundError | ProcessLookupError | PermissionError
  | AddressInUse => true
  | _ => false
  end.

(** Whether something exists at an address: what a client that connects
    meets. *)
Definition address_exists (o : os) (path : string) : bool :=
  if is_abstract path then bool_decide (path ∈ abstract_bound o)
  else bool_decide (path ∈ fs_sockets o).

(** [asyncio.start_unix_server(path=...)]: binding a listening socket.  For
    a file-system path a stale socket file is removed first. *)
Definition start_unix_server (o : os) (path : string) : result os :=
  if is_abstract path then
    if bool_decide (path ∈ abstract_bound o) then Raise AddressInUse
    else Ok {| fs_sockets := fs_sockets o;
               abstract_bound := abstract_bound o ∪ {[path]} |}
  else Ok {| fs_sockets := fs_sockets o ∪ {[path]};
             abstract_bound := abstract_bound o |}.

(** The daemon process: the callbacks registered with [atexit] (the only
    one is [cleanup], identified by the path it closes over), the status
    [os._exit] is called with by the SIGTERM handler, the address the
    listening socket is bound to, the callbacks that have run, and the exit
    status once the process has ended. *)
Record process : Type := mkProc {
  p_atexit : list string;
  p_sigterm : option Z;
  p_bound : option string;
  p_ran : list string;
  p_status : option Z
}.

Definition process_new : process :=
  {| p_atexit := []; p_sigterm := None; p_bound := None; p_ran := [];
     p_status := None |}.

(** The closure [cleanup] of [run_daemon_loop]. *)
Definition cleanup (socket_path : string) (o : os) : result os :=
  if os_path_exists o socket_path then
    match os_unlink o socket_path with
    | Ok o' => Ok o'
    | Raise e => if is_OSError e then Ok o else Raise e
    end
  else Ok o.

(** What the kernel does when a process ends, however it ends: its sockets
    are closed, which frees the abstract name it had bound.  Socket files
    are not touched. *)
Definition kernel_reclaim (o : os) (p : process) : os :=
  match p_bound p with
  | Some a =>
      if is_abstract a then
        {| fs_sockets := fs_sockets o; abstract_bound := abstract_bound o ∖ {[a]} |}
      else o
  | None => o
  end.

(** [os._exit(n)]: the process ends at once, without calling the [atexit]
    callbacks. *)
Definition os__exit (n : Z) (o : os) (p : process) : os * process :=
  (kernel_reclaim o p,
   {| p_atexit := p_atexit p; p_sigterm := p_sigterm p; p_bound := None;
      p_ran := p_ran p; p_status := Some n |}).

(** The [atexit] callbacks, last registered first; an exception in a
    callback is printed and the next one runs. *)
Fixpoint run_atexit (hooks : list string) (o : os) : os :=
  match hooks with
  | [] => o
  | h :: hooks' =>
      run_atexit hooks' match cleanup h o with Ok o' => o' | Raise _ => o end
  end.

(** The interpreter shutting down by itself (end of [main], uncaught
    exception, [KeyboardInterrupt]): the [atexit] callbacks run, then the
    process ends. *)
Definition interpreter_exit (n : Z) (o : os) (p : process) : os * process :=
  let hooks := rev (p_atexit p) in
  let o' := run_atexit hooks o in
  (kernel_reclaim o' p,
   {| p_atexit := p_atexit p; p_sigterm := p_sigterm p; p_bound := None;
      p_ran := p_ran p ++ hooks; p_status := Some n |}).

(** [run_daemon_loop] up to [serve_forever]: the state of the system once
    the daemon serves, or once it has ended without serving. *)
Definition run_daemon_loop (shell_pid : Z) (o : os) : os * process :=
  if shell_pid =? 0 then os__exit 1 o process_new
  else
    let socket_path := get_socket_path shell_pid in
    let p1 := {| p_atexit := [socket_path]; p_sigterm := Some 0;
                 p_bound := None; p_ran := []; p_status := None |} in
    let stale :=
      if os_path_exists o socket_path then os_unlink o socket_path else Ok o in
    match stale with
    | Raise _ => interpreter_exit 1 o p1
    | Ok o1 =>
        match start_unix_server o1 socket_path with
        | Raise _ => interpreter_exit 1 o1 p1
        | Ok o2 =>
            (o2, {| p_atexit := [socket_path]; p_sigterm := Some 0;
                    p_bound := Some socket_path; p_ran := [];
                    p_status := None |})
        end
    end.

(** The ways the serving daemon ends. *)
Inductive termination : Type :=
| LivenessFailure       (* [check_shell_alive] finds the shell gone *)
| TermSignal            (* SIGTERM is delivered *)
| InterpreterExit (n : Z).  (* the interpreter leaves [asyncio.run] *)

Definition terminate (t : termination) (o : os) (p : process) : os * process :=
  match p_status p with
  | Some _ => (o, p)
  | None =>
      match t with
      | LivenessFailure => os__exit 0 o p
      | TermSignal =>
          match p_sigterm p with
          | Some n => os__exit n o p
          | None => os__exit 143 o p
          end
      | InterpreterExit n => interpreter_exit n o p
      end
  end.

(** ** Liveness supervision *)

(** What a signal sent to a process id meets: a process the caller may
    signal, no process, or a process of another user. *)
Inductive kill_target : Type :=
| OwnProcess
| NoProcess
| ForeignProcess.

(** [os.kill(shell_pid, 0)]: nothing is sent, the checks are made. *)
Definition os_kill_0 (target : kill_target) : result unit :=
  match target with
  | OwnProcess => Ok tt
  | NoProcess => Raise ProcessLookupError
  | ForeignProcess => Raise PermissionError
  end.

(** What the liveness task has come to after a number of polls. *)
Inductive supervision : Type :=
| Polling (now : nat)
| Exited (n : Z) (now : nat)
| TaskFailed (e : exn) (now : nat).

(** [check_shell_alive]: [target t] is what the shell's process id stands
    for at time [t], in seconds; [now] is the time the task starts; [polls]
    bounds the number of iterations of [while True] that are followed.
    Only [ProcessLookupError] is caught: any other exception ends the
    task, and with it the polling. *)
Fixpoint check_shell_alive (polls : nat) (target : nat -> kill_target)
    (now : nat) : supervision :=
  match polls with
  | O => Polling now
  | S polls' =>
      let now' := (now + 5)%nat in
      match os_kill_0 (target now') with
      | Ok _ => check_shell_alive polls' target now'
      | Raise ProcessLookupError => Exited 0 now'
      | Raise e => TaskFailed e now'
      end
  end.

(** The daemon under supervision: started at time [start], followed for
    [polls] polls of the liveness task.  A liveness task that has failed
    leaves the daemon serving: the exception stays in the task. *)
Definition supervised_daemon (polls : nat) (target : nat -> kill_target)
    (shell_pid : Z) (start : nat) (o : os) : os * process * supervision :=
  let '(o1, p1) := run_daemon_loop shell_pid o in
  match p_status p1 with
  | Some n => (o1, p1, Exited n start)
  | None =>
      match check_shell_alive polls target start with
      | Exited n t => (os__exit n o1 p1, Exited n t)
      | s => (o1, p1, s)
      end
  end.

(** ** Client: strings *)

Definition NL : string := String (ascii_of_nat 10) "".

Definition SYSTEM_PROMPT : string :=
  "You are a helpful AI assistant." +:+ NL +:+
  "Be concise and direct in your responses. NEVER use markdown formatting - use plain text only.".

(** [str.isspace] on the characters below 256. *)
Definition is_space (c : ascii) : bool :=
  let n := nat_of_ascii c in
  ((9 <=? n) && (n <=? 13) || (28 <=? n) && (n <=? 32)
   || (n =? 133) || (n =? 160))%nat.

Fixpoint lstrip (s : string) : string :=
  match s with
  | EmptyString => EmptyString
  | String c s' => if is_space c then lstrip s' else s
  end.

Definition rstrip (s : string) : string :=
  String.rev (lstrip (String.rev s)).

Definition strip (s : string) : string := rstrip (lstrip s).

(** [sep.join(l)] *)
Fixpoint join (sep : string) (l : list string) : string :=
  match l with
  | [] => ""
  | [x] => x
  | x :: l' => x +:+ sep +:+ join sep l'
  end.

(** [s.endswith("\n")] *)
Fixpoint ends_with_NL (s : string) : bool :=
  match s with
  | EmptyString => false
  | String c EmptyString => bool_decide (c = ascii_of_nat 10)
  | String _ s' => ends_with_NL s'
  end.

Definition nonempty (s : string) : bool :=
  match s with EmptyString => false | String _ _ => true end.

(** Truth value of an optional string: [None] and [""] are false. *)
Definition given (o : option string) : bool :=
  match o with Some s => nonempty s | None => false end.

(** ** Client: the invocation and its surroundings *)

(** The result of [parse_args]. *)
Record Args : Type := mkArgs {
  short : bool;
  medium : bool;
  long : bool;
  thinking : bool;
  clear : bool;
  print_context : bool;
  isolated : bool;
  help : bool;
  prompt : list string
}.

(** What an invocation finds and cannot change: the text on standard input
    ([None] when standard input is a terminal, see [read_stdin]), the
    variable [GEMINI_API_KEY], the process id of the parent shell, the
    generation call, and [str()] on a value that is not a string. *)
Record environ : Type := mkEnviron {
  read_stdin : option string;
  GEMINI_API_KEY : option string;
  getppid : Z;
  call_gemini : string -> string -> Z -> string;
  py_str : json -> string
}.

(** What an invocation can change or observe changing.
    - [listening]: the daemons that serve, by address, with their state;
    - [startup]: how many further 100 ms sleeps a daemon launched by
      [run_daemon] needs, after the first one, before it listens ([None]:
      it never does);
    - [booting]: a launched daemon that does not listen yet;
    - [spawned]: the shell process ids [run_daemon] was called with;
    - [sleeps]: the number of [asyncio.sleep(0.1)] calls;
    - [link]: the address the client is connected to; [peer_open]: whether
      the handler task at the other end still runs; [inbox]: responses
      written by the daemon and not read yet; [requests]: the requests the
      client has written to a daemon;
    - [generations]: the prompts given to [call_gemini];
    - [stdout], [stderr]: the text printed. *)
Record world : Type := mkWorld {
  listening : gmap string State;
  startup : option nat;
  booting : option (string * State * nat);
  spawned : list Z;
  sleeps : nat;
  link : option string;
  peer_open : bool;
  inbox : list json;
  requests : list json;
  generations : list string;
  stdout : string;
  stderr : string
}.

(** How a piece of client code ends: normally, with an exception, or never
    (blocked in a read that nothing will answer). *)
Inductive cres (A : Type) : Type :=
| Done (a : A)
| Fail (e : exn)
| Blocked.
Arguments Done {A} a.
Arguments Fail {A} e.
Arguments Blocked {A}.

Definition Client (A : Type) : Type := world -> cres A * world.

Definition ret {A} (a : A) : Client A := fun w => (Done a, w).

Definition bind {A B} (c : Client A) (k : A -> Client B) : Client B :=
  fun w =>
    match c w with
    | (Done a, w') => k a w'
    | (Fail e, w') => (Fail e, w')
    | (Blocked, w') => (Blocked, w')
    end.

Definition raise {A} (e : exn) : Client A := fun w => (Fail e, w).

(** [try: c except: h] with a bare [except]. *)
Definition try_except {A} (c h : Client A) : Client A :=
  fun w =>
    match c w with
    | (Fail _, w') => h w'
    | r => r
    end.

Declare Scope client_scope.
Delimit Scope client_scope with client.
Notation "x <- c ;; k" := (bind c (fun x => k))
  (at level 100, c at next level, right associativity) : client_scope.
Notation "c ;; k" := (bind c (fun _ => k))
  (at level 100, right associativity) : client_scope.
#[local] Open Scope client_scope.

Definition lift {A} (r : result A) : Client A :=
  match r with Ok a => ret a | Raise e => raise e end.

Definition print (s : string) : Client unit := fun w =>
  (Done tt,
   mkWorld (listening w) (startup w) (booting w) (spawned w) (sleeps w)
     (link w) (peer_open w) (inbox w) (requests w) (generations w)
     (stdout w +:+ s +:+ NL) (stderr w)).

(** [print(s, end="", flush=True)] *)
Definition print_raw (s : string) : Client unit := fun w =>
  (Done tt,
   mkWorld (listening w) (startup w) (booting w) (spawned w) (sleeps w)
     (link w) (peer_open w) (inbox w) (requests w) (generations w)
     (stdout w +:+ s) (stderr w)).

(** [print(s, file=sys.stderr)] *)
Definition print_err (s : string) : Client unit := fun w =>
  (Done tt,
   mkWorld (listening w) (startup w) (booting w) (spawned w) (sleeps w)
     (link w) (peer_open w) (inbox w) (requests w) (generations w)
     (stdout w) (stderr w +:+ s +:+ NL)).

(** [call_gemini], run in the executor. *)
Definition generate (e : environ) (full_prompt api_key : string) (budget : Z)
  : Client string := fun w =>
  (Done (call_gemini e full_prompt api_key budget),
   mkWorld (listening w) (startup w) (booting w) (spawned w) (sleeps w)
     (link w) (peer_open w) (inbox w) (requests w)
     (generations w ++ [full_prompt]) (stdout w) (stderr w)).

(** [asyncio.open_unix_connection(path)]: succeeds when a daemon listens at
    the address. *)
Definition open_unix_connection (path : string) : Client unit := fun w =>
  match listening w !! path with
  | Some _ =>
      (Done tt,
       mkWorld (listening w) (startup w) (booting w) (spawned w) (sleeps w)
         (Some path) true [] (requests w) (generations w) (stdout w) (stderr w))
  | None => (Fail ConnectionRefusedError, w)
  end.

(** [writer.close(); await writer.wait_closed()] *)
Definition close : Client unit := fun w =>
  (Done tt,
   mkWorld (listening w) (startup w) (booting w) (spawned w) (sleeps w)
     None false (inbox w) (requests w) (generations w) (stdout w) (stderr w)).

(** [run_daemon]: the new process is detached; it listens later, if ever. *)
Definition run_daemon (shell_pid : Z) : Client unit := fun w =>
  (Done tt,
   mkWorld (listening w) (startup w)
     (match startup w with
      | Some k => Some (get_socket_path shell_pid, State_new shell_pid, k)
      | None => None
      end)
     (spawned w ++ [shell_pid]) (sleeps w)
     (link w) (peer_open w) (inbox w) (requests w) (generations w)
     (stdout w) (stderr w)).

(** [await asyncio.sleep(0.1)]: time passes, and a daemon that was booting
    may start to listen (unless the address is taken). *)
Definition sleep_100ms : Client unit := fun w =>
  let '(l, b) :=
    match booting w with
    | Some (a, st, O) =>
        (match listening w !! a with
         | None => <[a := st]> (listening w)
         | Some _ => listening w
         end, None)
    | Some (a, st, S k) => (listening w, Some (a, st, k))
    | None => (listening w, None)
    end in
  (Done tt,
   mkWorld l (startup w) b (spawned w) (S (sleeps w))
     (link w) (peer_open w) (inbox w) (requests w) (generations w)
     (stdout w) (stderr w)).

(** [float.__repr__], which is also [str] on a [float]. *)
Definition float_repr (e : environ) (f : float) : string := py_str e (JFloat f).

(** The client's [send_json]: the handler task at the other end takes one
    turn on what its [readline] yields for the line written, and queues
    what it writes.  With nobody at the other end the write is lost
    ([send_json] returns [False]). *)
Definition client_send (e : environ) (obj : json) : Client bool := fun w =>
  match link w with
  | None => (Done false, w)
  | Some a =>
      match peer_open w, listening w !! a with
      | true, Some st =>
          let '(sent, st', open') :=
            match loop_body (received (float_repr e) obj) writer_new st with
            | Next w' st' => (w_sent w', st', true)
            | Break w' st' => (w_sent w', st', false)
            | Throw _ w' st' => (w_sent w', st', false)
            end in
          (Done true,
           mkWorld (<[a := st']> (listening w)) (startup w) (booting w)
             (spawned w) (sleeps w) (link w) open' (inbox w ++ sent)
             (requests w ++ [obj]) (generations w) (stdout w) (stderr w))
      | _, _ =>
          (Done false,
           mkWorld (listening w) (startup w) (booting w) (spawned w)
             (sleeps w) (link w) false (inbox w) (requests w)
             (generations w) (stdout w) (stderr w))
      end
  end.

(** The client's [recv_json]: the next queued response, as the client's
    [readline] yields it; [None] once the other end has closed; blocked
    when it is open and silent. *)
Definition client_recv (e : environ) : Client (option json) := fun w =>
  match inbox w with
  | v :: rest =>
      (match recv_json (Some (received (float_repr e) v)) with
       | Ok r => Done r
       | Raise e => Fail e
       end,
       mkWorld (listening w) (startup w) (booting w) (spawned w) (sleeps w)
         (link w) (peer_open w) rest (requests w) (generations w)
         (stdout w) (stderr w))
  | [] => if peer_open w then (Blocked, w) else (Done None, w)
  end.

(** ** Client: [run_client] *)

(** The length hint [l] of [run_client]: ["short"], ["medium"], ["long"] or
    [None]. *)
Inductive hint : Type := HShort | HMedium | HLong.

Definition length_hint (a : Args) : option hint :=
  if short a then Some HShort
  else if medium a then Some HMedium
  else if long a then Some HLong
  else None.

Definition system_for (a : Args) : string :=
  match length_hint a with
  | Some HShort => SYSTEM_PROMPT +:+ NL +:+ "Respond in 1-2 sentences."
  | Some HMedium => SYSTEM_PROMPT +:+ NL +:+ "Respond in 3-5 sentences."
  | Some HLong => SYSTEM_PROMPT +:+ NL +:+ "Respond in 2-3 paragraphs."
  | None => SYSTEM_PROMPT
  end.

Definition thinking_budget (a : Args) : Z := if thinking a then 4096 else 0.

(** [print(response_text, end="", flush=True)] and the newline that is
    added when the text does not end with one. *)
Definition print_response (response_text : string) : Client unit :=
  print_raw response_text ;;
  if ends_with_NL response_text then ret tt else print "".

(** [v.strip()]: only a [str] has the method. *)
Definition str_strip (v : json) : result string :=
  match v with
  | JStr s => Ok (strip s)
  | _ => Raise AttributeError
  end.

(** [v += s] for a string [s]: concatenation on a [str]; a [list] is
    extended by the characters of [s]; [TypeError] otherwise. *)
Definition iadd_str (v : json) (s : string) : result json :=
  match v with
  | JStr a => Ok (JStr (a +:+ s))
  | JArr l =>
      Ok (JArr (l ++ map (fun c => JStr (String c "")) (String.list_ascii_of_string s)))
  | _ => Raise TypeError
  end.

(** [v + s] for a string [s]. *)
Definition add_str (v : json) (s : string) : result json :=
  match v with
  | JStr a => Ok (JStr (a +:+ s))
  | _ => Raise TypeError
  end.

(** A value inside an f-string. *)
Definition format (e : environ) (v : json) : string :=
  match v with
  | JStr s => s
  | _ => py_str e v
  end.

(** [msg.get("data", "") if msg else ""] *)
Definition context_of (msg : option json) : result json :=
  match msg with
  | Some m => if truthy m then dict_get m "data" (JStr "") else Ok (JStr "")
  | None => Ok (JStr "")
  end.

(** Lines 139-182. *)
Definition isolated_mode (e : environ) (a : Args) (user_prompt : string)
  : Client unit :=
  let stdin_data := read_stdin e in
  if negb (given stdin_data) && negb (nonempty user_prompt) then
    print_err "[Error] Isolated mode requires a prompt or stdin."
  else if negb (given (GEMINI_API_KEY e)) then
    print_err "[Error] Missing GEMINI_API_KEY"
  else
    let api_key := default "" (GEMINI_API_KEY e) in
    let system := system_for a in
    let context :=
      if given stdin_data
      then "[Context]" +:+ NL +:+ strip (default "" stdin_data) else "" in
    let full_prompt :=
      if nonempty context then
        system +:+ NL +:+ NL +:+ context +:+ NL +:+ NL +:+ "[Prompt]" +:+ NL
          +:+ user_prompt +:+ NL +:+ NL +:+ "[Response]"
      else
        system +:+ NL +:+ NL +:+ "[Prompt]" +:+ NL +:+ user_prompt
          +:+ NL +:+ NL +:+ "[Response]" in
    response_text <- generate e full_prompt api_key (thinking_budget a) ;;
    print_response response_text.

(** Lines 188-197: the liveness probe. *)
Definition probe (socket_path : string) : Client unit :=
  print ("[Info] " +:+ INFO) ;;
  try_except
    (open_unix_connection socket_path ;; close ;; print "[Info] Daemon running")
    (print "[Info] Daemon not running").

(** Lines 204-213: the [for ... else] loop; [false] stands for the [return]
    of the [else] branch. *)
Fixpoint retry_connect (attempts : nat) (socket_path : string) : Client bool :=
  match attempts with
  | O => print_err "[Error] Daemon failed to start." ;; ret false
  | S attempts' =>
      sleep_100ms ;;
      connected <- try_except (open_unix_connection socket_path ;; ret true)
                              (ret false) ;;
      if connected : bool then ret true else retry_connect attempts' socket_path
  end.

(** Lines 200-213. *)
Definition connect_or_start (shell_pid : Z) (socket_path : string)
  : Client bool :=
  try_except (open_unix_connection socket_path ;; ret true)
             (run_daemon shell_pid ;; retry_connect 20 socket_path).

(** Lines 215-293, with the connection open. *)
Definition session (e : environ) (a : Args) (user_prompt : string)
  : Client unit :=
  let stdin_data := read_stdin e in
  (if clear a then
     client_send e req_clear ;; client_recv e ;; ret tt
   else if print_context a then
     client_send e req_get ;;
     msg <- client_recv e ;;
     match msg with
     | Some m =>
         if truthy m then
           d <- lift (dict_get m "data" (JStr "")) ;;
           s <- lift (str_strip d) ;;
           print (if nonempty s then s else "(empty)")
         else ret tt
     | None => ret tt
     end
   else ret tt) ;;
  if clear a || print_context a then close
  else
    client_send e req_get ;;
    msg <- client_recv e ;;
    context <- lift (context_of msg) ;;
    context <-
      (if given stdin_data then
         c <- (if truthy context then lift (iadd_str context (NL +:+ NL))
               else ret context) ;;
         lift (iadd_str c ("[Context]" +:+ NL +:+ strip (default "" stdin_data)))
       else ret context) ;;
    if negb (nonempty user_prompt) then
      (if given stdin_data then
         client_send e (req_set context) ;; client_recv e ;;
         print "[Context Added]"
       else ret tt) ;;
      close
    else if negb (given (GEMINI_API_KEY e)) then
      print_err "[Error] Missing GEMINI_API_KEY" ;; close
    else
      let api_key := default "" (GEMINI_API_KEY e) in
      let system := system_for a in
      let full_prompt :=
        if truthy context then
          system +:+ NL +:+ NL +:+ "[Context]" +:+ NL +:+ format e context
            +:+ NL +:+ NL +:+ "[Prompt]" +:+ NL +:+ user_prompt
            +:+ NL +:+ NL +:+ "[Response]"
        else
          system +:+ NL +:+ NL +:+ "[Prompt]" +:+ NL +:+ user_prompt
            +:+ NL +:+ NL +:+ "[Response]" in
      response_text <- generate e full_prompt api_key (thinking_budget a) ;;
      print_response response_text ;;
      new_context <-
        lift (add_str context
                (NL +:+ NL +:+ "[Prompt]" +:+ NL +:+ user_prompt +:+ NL +:+ NL
                 +:+ "[Response]" +:+ NL +:+ strip response_text)) ;;
      client_send e (req_set new_context) ;; client_recv e ;;
      close.

Definition usage : list string :=
  [ INFO +:+ NL +:+ "Usage: llm [OPTIONS] [PROMPT]" +:+ NL;
    "  -s, --short      1-2 sentence response";
    "  -m, --medium     3-5 sentence response";
    "  -l, --long       2-3 paragraphs";
    "  -t, --thinking   Enable extended thinking (4096 tokens)";
    "  -i, --isolated   Isolated mode: ignore and don't save context";
    "  -c, --clear      Clear context and history";
    "  -p, --print      Print context and history" ].

Fixpoint print_all (l : list string) : Client unit :=
  match l with
  | [] => ret tt
  | s :: l' => print s ;; print_all l'
  end.

Definition run_client (e : environ) (a : Args) : Client unit :=
  if help a then print_all usage
  else
    let stdin_data := read_stdin e in
    let user_prompt := strip (join " " (prompt a)) in
    if isolated a then isolated_mode e a user_prompt
    else
      let shell_pid := getppid e in
      let socket_path := get_socket_path shell_pid in
      if negb (given stdin_data) && negb (nonempty user_prompt)
         && negb (print_context a) && negb (clear a)
      then probe socket_path
      else
        connected <- connect_or_start shell_pid socket_path ;;
        if connected : bool then session e a user_prompt else ret tt.

(** The client branch of [main]: the exit status of the process, [None]
    when the invocation never ends.  [asyncio.run] returning normally ends
    the script with status 0; [KeyboardInterrupt] is reported and the
    script ends normally too; any other exception ends it with a traceback
    and status 1.  (The daemon branch is [run_daemon_loop].) *)
Definition main (e : environ) (a : Args) (w : world) : option Z * world :=
  match run_client e a w with
  | (Done _, w') => (Some 0, w')
  | (Fail KeyboardInterrupt, w') =>
      (Some 0, snd (print (NL +:+ "Interrupted.") w'))
  | (Fail _, w') => (Some 1, w')
  | (Blocked, w') => (None, w')
  end.


(** ** Client: specifications *)

(** [returns pre c post]: started in a world where [pre] holds, [c] does
    not block; when it returns a value, [post] holds of the value and the
    world.  (Nothing is said of the world an exception leaves.) *)
Definition returns {A} (pre : world -> Prop) (c : Client A)
    (post : A -> world -> Prop) : Prop :=
  forall w, pre w ->
    match c w with
    | (Done a, w') => post a w'
    | (Fail _, _) => True
    | (Blocked, _) => False
    end.

(** The handler task at the other end, if it still runs, belongs to a
    daemon that listens. *)
Definition served (w : world) : Prop :=
  peer_open w = true ->
  exists a st, link w = Some a /\ listening w !! a = Some st.

(** The client has read every response: the handler task at the other end
    waits for the next request, or has ended. *)
Definition settled (w : world) : Prop := inbox w = [] /\ served w.

(** One response is written and not read yet, or the handler task at the
    other end has ended without one. *)
Definition pending (w : world) : Prop :=
  ((exists v, inbox w = [v]) \/ (inbox w = [] /\ peer_open w = false))
  /\ served w.

(** A value is a request of the client when it is one of the three
    messages. *)
Definition client_request (v : json) : Prop := exists r, v = encode r.

(** What [connect_or_start] promises: a connection when it returns [true]. *)
Definition connected_if (ok : bool) (w : world) : Prop :=
  if ok then settled w else True.

(** ** Further notions used in the properties *)

(** Whether a read event is a request that changes the context: a message
    whose [action] is ["set"] or ["clear"]. *)
Definition mutates (ev : read_event) : bool :=
  match ev with
  | Data (Decodes (JObj m)) =>
      let action := default JNull (m !! "action") in
      eq_str action "set" || eq_str action "clear"
  | _ => false
  end.

(** Whether a value is a [dict]. *)
Definition is_dict (v : json) : bool :=
  match v with JObj _ => true | _ => false end.

(** The values a read event can bring into the context belong to [P]: if
    the event is an object, its [data] field does. *)
Definition payload_in (P : json -> Prop) (ev : read_event) : Prop :=
  forall m d, ev = Data (Decodes (JObj m)) -> m !! "data" = Some d -> P d.

(** A written object is [{"status": "ok"}] or carries a context of [P]. *)
Definition reply_in (P : json -> Prop) (v : json) : Prop :=
  v = resp_ok \/ exists ctx, v = resp_context ctx /\ P ctx.

(** A connection all of whose replies so far, and all of whose payloads
    still to come, are in [P]. *)
Definition connection_in (P : json -> Prop) (c : connection) : Prop :=
  Forall (payload_in P) (c_reader c) /\ Forall (reply_in P) (w_sent (c_writer c)).

(** The world of a client that has just connected to [path]. *)
Definition linked (path : string) (w : world) : world :=
  mkWorld (listening w) (startup w) (booting w) (spawned w) (sleeps w)
    (Some path) true [] (requests w) (generations w) (stdout w) (stderr w).

(** The world after the daemon at the other end of the connection has
    taken [r] from the state [st] and the client has read the response. *)
Definition exchanged (a : string) (st : State) (r : request) (w : world)
  : world :=
  mkWorld (<[a := {| pid := pid st; context := (respond (context st) r).2 |}]>
             (listening w))
    (startup w) (booting w) (spawned w) (sleeps w) (Some a) true []
    (requests w ++ [encode r]) (generations w) (stdout w) (stderr w).


(** The context a client works with when the stored context is the string
    [c] and the piped input is [stdin_data]: the input, stripped, is added
    under a [[Context]] marker, after a blank line when there is a context
    already. *)
Definition with_piped_input (c : string) (stdin_data : option string) : string :=
  if given stdin_data then
    (if nonempty c then c +:+ (NL +:+ NL) else c)
      +:+ ("[Context]" +:+ NL +:+ strip (default "" stdin_data))
  else c.


(** Whether a value is a [str]. *)
Definition is_str (v : json) : bool :=
  match v with JStr _ => true | _ => false end.

(** Two worlds that differ at most in what has been printed and generated:
    the daemons, the launches, the time slept and the connection are the
    same. *)
Definition same_daemons (w w' : world) : Prop :=
  listening w' = listening w /\ booting w' = booting w
  /\ spawned w' = spawned w /\ sleeps w' = sleeps w
  /\ link w' = link w /\ requests w' = requests w.

(** ** Starting the daemon: the environment *)

(** The value of a decimal digit. *)
Definition digit_of (c : ascii) : option Z :=
  let n := nat_of_ascii c in
  if ((48 <=? n) && (n <=? 57))%nat then Some (Z.of_nat n - 48) else None.

(** The digits of [int(s)]: [seen] is the number read so far, [None]
    before the first digit.  Digits may be separated by single
    underscores. *)
Fixpoint parse_digits (seen : option Z) (s : string) : option Z :=
  match s with
  | EmptyString => seen
  | String c s' =>
      match digit_of c with
      | Some d => parse_digits (Some (10 * default 0 seen + d)) s'
      | None =>
          match seen, s' with
          | Some n, String c' s'' =>
              match digit_of c' with
              | Some d =>
                  if bool_decide (c = "_"%char)
                  then parse_digits (Some (10 * n + d)) s''
                  else None
              | None => None
              end
          | _, _ => None
          end
      end
  end.

(** The white space [int] accepts around a number: the ASCII characters
    tab to carriage return and the space, and the two other space characters
    below 256 (the separators 28 to 31, which [str.strip] removes, are not
    among them). *)
Definition is_int_space (c : ascii) : bool :=
  let n := nat_of_ascii c in
  ((9 <=? n) && (n <=? 13) || (n =? 32) || (n =? 133) || (n =? 160))%nat.

Fixpoint skip_int_space (s : string) : string :=
  match s with
  | EmptyString => EmptyString
  | String c s' => if is_int_space c then skip_int_space s' else s
  end.

(** [int(s)] for a string, in base 10: surrounding white space is skipped,
    a sign may come first, digits follow; anything else is a [ValueError].
    (The limit some versions put on the number of digits is left out.) *)
Definition py_int (s : string) : result Z :=
  let t := String.rev (skip_int_space (String.rev (skip_int_space s))) in
  let '(negative, digits) :=
    match t with
    | String c t' =>
        if bool_decide (c = "-"%char) then (true, t')
        else if bool_decide (c = "+"%char) then (false, t')
        else (false, t)
    | EmptyString => (false, t)
    end in
  match parse_digits None digits with
  | Some n => Ok (if negative : bool then - n else n)
  | None => Raise ValueError
  end.

(** Lines 29-31 of [run_daemon]: the environment given to the new process
    is a copy of the client's, with the two variables set. *)
Definition run_daemon_env (environ : gmap string string) (shell_pid : Z)
  : gmap string string :=
  <["LLM_SHELL_PID" := str_int shell_pid]> (<[DAEMON_ENV := "1"]> environ).

(** What [main] chooses to do, from the environment it finds: run the
    daemon for the process id it reads (which may fail), or run the
    client. *)
Inductive mode : Type :=
| DaemonMode (shell_pid : result Z)
| ClientMode.

(** Lines 365-370 of [main]. *)
Definition main_mode (environ : gmap string string) : mode :=
  if bool_decide (environ !! DAEMON_ENV = Some "1") then
    DaemonMode (py_int (default "0" (environ !! "LLM_SHELL_PID")))
  else ClientMode.

(** Every character of a string passes a test. *)
Fixpoint string_forall (p : ascii -> bool) (s : string) : bool :=
  match s with
  | EmptyString => true
  | String c s' => p c && string_forall p s'
  end.

Definition is_digit (c : ascii) : bool :=
  match digit_of c with Some _ => true | None => false end.

(** ** The generation call *)

(** For [run_client] the call is the field [call_gemini] of the
    environment, a function of its three arguments.  What follows is the
    function itself, as far as the script decides it: the request it
    builds, and the text it returns for each outcome of sending it. *)

Definition GEMINI_API_URL : string :=
  "https://generativelanguage.googleapis.com/v1beta/models/gemini-2.5-flash:generateContent".

(** The request of [call_gemini]: the address with the key, and the
    payload. *)
Definition gemini_url (api_key : string) : string :=
  GEMINI_API_URL +:+ "?key=" +:+ api_key.

Definition gemini_payload (full_prompt : string) (thinking_budget : Z) : json :=
  JObj {[ "contents" :=
            JArr [JObj {[ "parts" := JArr [JObj {[ "text" := JStr full_prompt ]}] ]}];
          "generationConfig" :=
            JObj {[ "thinkingConfig" :=
                      JObj {[ "thinkingBudget" := JInt thinking_budget ]} ]} ]}.

(** What sending the request and reading the response come to: a body
    that [json.loads] decodes to a value; a body it does not decode (with
    the text of the exception); [HTTPError] with its code and body;
    [URLError] with its reason; any other exception, with its text. *)
Inductive http_outcome : Type :=
| Body (data : json)
| BadBody (text : string)
| HTTPError (code : Z) (body : string)
| URLError (reason : string)
| OtherError (text : string).

(** The Python type of a value, on which the text of a type or attribute
    error depends. *)
Inductive kind : Type := KNone | KBool | KInt | KFloat | KStr | KList | KDict.

Definition kind_of (v : json) : kind :=
  match v with
  | JNull => KNone
  | JBool _ => KBool
  | JInt _ => KInt
  | JFloat _ => KFloat
  | JStr _ => KStr
  | JArr _ => KList
  | JObj _ => KDict
  end.

(** The exceptions the reading of the response can raise, all of them
    caught by [except Exception]. *)
Inductive failure : Type :=
| NoGet (k : kind)               (* AttributeError: no attribute 'get' *)
| NotSubscriptable (k : kind)    (* TypeError *)
| NoSuchKey                      (* KeyError: 0 *)
| OutOfRange (k : kind)          (* IndexError *)
| NotIterable (k : kind)         (* TypeError *)
| NotText (index : nat) (k : kind).  (* TypeError: sequence item, in join *)

(** [v.get(key, dflt)] *)
Definition get_field (v : json) (key : string) (dflt : json) : failure + json :=
  match v with
  | JObj m => inr (default dflt (m !! key))
  | _ => inl (NoGet (kind_of v))
  end.

(** [v[0]] *)
Definition subscript_0 (v : json) : failure + json :=
  match v with
  | JArr (x :: _) => inr x
  | JArr [] => inl (OutOfRange KList)
  | JStr (String c _) => inr (JStr (String c ""))
  | JStr EmptyString => inl (OutOfRange KStr)
  | JObj _ => inl NoSuchKey
  | _ => inl (NotSubscriptable (kind_of v))
  end.

(** The items [for p in v] goes through: the elements of a list, the
    characters of a string, the keys of a dict. *)
Definition items (v : json) : failure + list json :=
  match v with
  | JArr l => inr l
  | JStr s => inr (map (fun c => JStr (String c "")) (String.list_ascii_of_string s))
  | JObj m => inr (map (fun kv => JStr kv.1) (map_to_list m))
  | _ => inl (NotIterable (kind_of v))
  end.

(** The generator [p.get("text", "") for p in parts], run to its end. *)
Fixpoint texts_of (ps : list json) : failure + list json :=
  match ps with
  | [] => inr []
  | p :: ps' =>
      match get_field p "text" (JStr "") with
      | inl f => inl f
      | inr t =>
          match texts_of ps' with
          | inl f => inl f
          | inr ts => inr (t :: ts)
          end
      end
  end.

(** ["".join(ts)]: every item has to be a string. *)
Fixpoint join_texts (index : nat) (ts : list json) : failure + string :=
  match ts with
  | [] => inr ""
  | JStr t :: ts' =>
      match join_texts (S index) ts' with
      | inl f => inl f
      | inr s => inr (t +:+ s)
      end
  | v :: _ => inl (NotText index (kind_of v))
  end.

(** Lines 84-91: the text in a decoded response; [dumps] is [json.dumps]. *)
Definition response_text (dumps : json -> string) (data : json)
  : failure + string :=
  let no_output :=
    inr ("[No output or response blocked]" +:+ NL +:+ dumps data) in
  match get_field data "candidates" (JArr []) with
  | inl f => inl f
  | inr cands =>
      if truthy cands then
        match subscript_0 cands with
        | inl f => inl f
        | inr first =>
            match get_field first "content" (JObj ∅) with
            | inl f => inl f
            | inr content =>
                if truthy content then
                  match get_field content "parts" (JArr []) with
                  | inl f => inl f
                  | inr parts =>
                      match items parts with
                      | inl f => inl f
                      | inr ps =>
                          match texts_of ps with
                          | inl f => inl f
                          | inr ts => join_texts 0 ts
                          end
                      end
                  end
                else no_output
            end
        end
      else no_output
  end.

(** What [call_gemini] returns, from the outcome of the request; [dumps]
    is [json.dumps] and [describe] the text of a caught exception. *)
Definition call_gemini_result (dumps : json -> string)
    (describe : failure -> string) (h : http_outcome) : string :=
  match h with
  | Body data =>
      match response_text dumps data with
      | inr text => text
      | inl f => "Error: " +:+ describe f
      end
  | BadBody text => "Error: " +:+ text
  | HTTPError code body => "HTTP " +:+ str_int code +:+ ": " +:+ body
  | URLError reason => "Network error: " +:+ reason
  | OtherError text => "Error: " +:+ text
  end.

(** The text of one part of a response, when it has one: the [text] field
    of an object if it is a string, the empty string if there is no such
    field. *)
Definition part_text (p : json) : option string :=
  match p with
  | JObj m =>
      match m !! "text" with
      | Some (JStr t) => Some t
      | Some _ => None
      | None => Some ""
      end
  | _ => None
  end.

Fixpoint concat_strings (l : list string) : string :=
  match l with
  | [] => ""
  | s :: l' => s +:+ concat_strings l'
  end.
(** * Properties *)

(** ** Values and messages *)

Lemma truthy_obj_lookup (m : gmap string json) (k : string) (v : json) :
  m !! k = Some v -> truthy (JObj m) = true.
Proof.
  intros Hk. simpl. apply negb_true_iff, bool_decide_eq_false.
  intros Hsize. apply map_size_empty_iff in Hsize. subst m.
  by rewrite lookup_empty in Hk.
Qed.

Lemma truthy_obj_empty : truthy (JObj ∅) = false.
Proof. reflexivity. Qed.

Lemma dict_get_present (m : gmap string json) (k : string) (v dflt : json) :
  m !! k = Some v -> dict_get (JObj m) k dflt = Ok v.
Proof. intros Hk. simpl. by rewrite Hk. Qed.

Lemma dict_get_absent (m : gmap string json) (k : string) (dflt : json) :
  m !! k = None -> dict_get (JObj m) k dflt = Ok dflt.
Proof. intros Hk. simpl. by rewrite Hk. Qed.

Lemma req_set_action (d : json) :
  dict_get (req_set d) "action" JNull = Ok (JStr "set").
Proof. apply dict_get_present. by simplify_map_eq. Qed.

Lemma req_set_data (d dflt : json) : dict_get (req_set d) "data" dflt = Ok d.
Proof. apply dict_get_present. by simplify_map_eq. Qed.

Lemma req_set_truthy (d : json) : truthy (req_set d) = true.
Proof. apply truthy_obj_lookup with "action" (JStr "set"). by simplify_map_eq. Qed.

(** ** One connection *)

Lemma send_json_healthy (w : writer) (obj : json) :
  w_fault w = None -> send_json w obj = (Ok true, writer_push w obj).
Proof. intros Hw. unfold send_json. by rewrite Hw. Qed.

Lemma send_then_healthy (w : writer) (obj : json) (st : State) :
  w_fault w = None -> send_then w obj st = Next (writer_push w obj) st.
Proof. intros Hw. unfold send_then. by rewrite send_json_healthy. Qed.

Lemma writer_push_fault (w : writer) (obj : json) :
  w_fault (writer_push w obj) = w_fault w.
Proof. reflexivity. Qed.

Lemma writer_push_sent (w : writer) (obj : json) :
  w_sent (writer_push w obj) = w_sent w ++ [obj].
Proof. reflexivity. Qed.

Lemma finally_close_sent (w : writer) : w_sent (finally_close w) = w_sent w.
Proof. unfold finally_close. by destruct (w_closing w). Qed.

Lemma finally_close_closing (w : writer) : w_closing (finally_close w) = true.
Proof. unfold finally_close. by destruct (w_closing w) eqn:E. Qed.

Create Rewrite HintDb writer.
#[local] Hint Rewrite writer_push_fault writer_push_sent finally_close_sent
  finally_close_closing : writer.

Lemma loop_body_decodes (v : json) (w : writer) (st : State) :
  loop_body (Data (Decodes v)) w st
  = if truthy v then dispatch v w st else Break w st.
Proof. reflexivity. Qed.

(** What each supported request does to a healthy connection. *)
Lemma loop_body_get (w : writer) (st : State) :
  w_fault w = None ->
  loop_body (Data (Decodes req_get)) w st
  = Next (writer_push w (resp_context (context st))) st.
Proof.
  intros Hw. rewrite loop_body_decodes.
  change (truthy req_get) with true. cbv iota. unfold dispatch.
  change (dict_get req_get "action" JNull) with (Ok (JStr "get")).
  change (eq_str (JStr "get") "get") with true. cbv iota.
  by apply send_then_healthy.
Qed.

Lemma loop_body_set (d : json) (w : writer) (st : State) :
  w_fault w = None ->
  loop_body (Data (Decodes (req_set d))) w st
  = Next (writer_push w resp_ok) {| pid := pid st; context := d |}.
Proof.
  intros Hw. rewrite loop_body_decodes, req_set_truthy. unfold dispatch.
  rewrite req_set_action, req_set_data.
  change (eq_str (JStr "set") "get") with false.
  change (eq_str (JStr "set") "set") with true. cbv iota.
  by apply send_then_healthy.
Qed.

Lemma loop_body_clear (w : writer) (st : State) :
  w_fault w = None ->
  loop_body (Data (Decodes req_clear)) w st
  = Next (writer_push w resp_ok) {| pid := pid st; context := JStr "" |}.
Proof.
  intros Hw. rewrite loop_body_decodes.
  change (truthy req_clear) with true. cbv iota. unfold dispatch.
  change (dict_get req_clear "action" JNull) with (Ok (JStr "clear")).
  change (eq_str (JStr "clear") "get") with false.
  change (eq_str (JStr "clear") "set") with false.
  change (eq_str (JStr "clear") "clear") with true. cbv iota.
  by apply send_then_healthy.
Qed.

Lemma loop_body_request (r : request) (w : writer) (st : State) :
  w_fault w = None ->
  loop_body (Data (Decodes (encode r))) w st
  = Next (writer_push w (respond (context st) r).1)
         {| pid := pid st; context := (respond (context st) r).2 |}.
Proof.
  intros Hw. destruct r as [|d|]; simpl encode; simpl respond.
  - rewrite loop_body_get by done. by destruct st.
  - by apply loop_body_set.
  - by apply loop_body_clear.
Qed.

(** The loop answers a sequence of requests one by one, in the order
    received, each on the context the previous ones have left. *)
Lemma serve_loop_in_order (rs : list request) (w : writer) (st : State) :
  w_fault w = None ->
  serve_loop (map (fun r => Data (Decodes (encode r))) rs) w st
  = (Returned,
     {| w_sent := w_sent w ++ (respond_all (context st) rs).1;
        w_fault := None; w_closing := w_closing w |},
     {| pid := pid st; context := (respond_all (context st) rs).2 |}).
Proof.
  revert w st. induction rs as [|r rs IH]; intros w st Hw.
  - simpl. rewrite app_nil_r. destruct w, st. simpl in Hw. by subst.
  - cbn [map serve_loop]. rewrite loop_body_request by done.
    rewrite IH by done. cbn [pid context w_sent w_closing writer_push].
    cbn [respond_all].
    destruct (respond (context st) r) as [v ctx']. cbn [fst snd].
    destruct (respond_all ctx' rs) as [vs ctx'']. cbn [fst snd].
    by rewrite <- app_assoc.
Qed.

Lemma loop_body_undecodable (w : writer) (st : State) :
  loop_body (Data Undecodable) w st = Throw ValueError w st.
Proof. reflexivity. Qed.

Lemma loop_body_unsupported (m : gmap string json) (w : writer) (st : State) :
  m <> ∅ -> unsupported m ->
  loop_body (Data (Decodes (JObj m))) w st = Next w st.
Proof.
  intros Hne (Hget & Hset & Hclear). rewrite loop_body_decodes.
  assert (truthy (JObj m) = true) as ->.
  { simpl. apply negb_true_iff, bool_decide_eq_false.
    by rewrite map_size_empty_iff. }
  unfold dispatch, dict_get. by rewrite Hget, Hset, Hclear.
Qed.

(** Whatever one iteration does, it only adds to what was written. *)
Lemma send_then_sent (w : writer) (obj : json) (st : State) :
  match send_then w obj st with
  | Next w' _ | Break w' _ | Throw _ w' _ => w_sent w `prefix_of` w_sent w'
  end.
Proof.
  unfold send_then, send_json. destruct (w_fault w) as [e|].
  - by destruct (send_catches e).
  - simpl. by apply prefix_app_r.
Qed.

Lemma loop_body_sent (ev : read_event) (w : writer) (st : State) :
  match loop_body ev w st with
  | Next w' _ | Break w' _ | Throw _ w' _ => w_sent w `prefix_of` w_sent w'
  end.
Proof.
  unfold loop_body.
  destruct (recv_json (Some ev)) as [[data|]|e]; [|done..].
  destruct (truthy data); [|done]. unfold dispatch.
  destruct (dict_get data "action" JNull) as [action|e]; [|done].
  destruct (eq_str action "get"); [apply send_then_sent|].
  destruct (eq_str action "set").
  { destruct (dict_get data "data" (JStr "")); [apply send_then_sent|done]. }
  destruct (eq_str action "clear"); [apply send_then_sent|done].
Qed.

Lemma serve_loop_sent (r : reader) (w : writer) (st : State) :
  w_sent w `prefix_of` w_sent (serve_loop r w st).1.2.
Proof.
  revert w st. induction r as [|ev r IH]; intros w st; simpl; [done|].
  pose proof (loop_body_sent ev w st) as Hstep.
  destruct (loop_body ev w st) as [w' st'|w' st'|e w' st']; simpl; [|done..].
  etrans; [exact Hstep|apply IH].
Qed.


Lemma daemon_handle_sent (r : reader) (w : writer) (st : State) :
  w_sent (daemon_handle r w st).1.2 = w_sent (serve_loop r w st).1.2.
Proof.
  unfold daemon_handle.
  destruct (serve_loop r w st) as [[[|e] w'] st']; simpl;
    by autorewrite with writer.
Qed.

Lemma daemon_handle_closes (r : reader) (w : writer) (st : State) :
  w_closing (daemon_handle r w st).1.2 = true.
Proof.
  unfold daemon_handle.
  destruct (serve_loop r w st) as [[[|e] w'] st']; simpl;
    by autorewrite with writer.
Qed.

Lemma task_run_ended (n : nat) (c : connection) (st : State) :
  is_Some (c_ended c) -> task_run n c st = (c, st).
Proof.
  intros [o Ho]. induction n as [|n IH]; [done|].
  simpl. unfold task_step. by rewrite Ho.
Qed.

Lemma task_step_cons (ev : read_event) (r : reader) (w : writer) (st : State) :
  task_step {| c_reader := ev :: r; c_writer := w; c_ended := None |} st
  = match loop_body ev w st with
    | Next w' st' => ({| c_reader := r; c_writer := w'; c_ended := None |}, st')
    | Break w' st' => (end_task Returned w', st')
    | Throw e w' st' => (end_task (Raised e) w', st')
    end.
Proof. reflexivity. Qed.

(** The turn-by-turn reading of a handler task agrees with
    [daemon_handle]: given enough turns, the task ends the way
    [daemon_handle] returns. *)
Lemma task_run_daemon_handle (r : reader) (w : writer) (st : State) (n : nat) :
  (length r < n)%nat ->
  task_run n {| c_reader := r; c_writer := w; c_ended := None |} st
  = ({| c_reader := [];
        c_writer := (daemon_handle r w st).1.2;
        c_ended := Some (daemon_handle r w st).1.1 |},
     (daemon_handle r w st).2).
Proof.
  revert w st n. induction r as [|ev r IH]; intros w st n Hn;
    (destruct n as [|n]; [simpl in Hn; lia|]).
  - simpl. by rewrite task_run_ended.
  - cbn [task_run]. rewrite task_step_cons. unfold daemon_handle in *.
    cbn [serve_loop].
    destruct (loop_body ev w st) as [w1 st1|w1 st1|e w1 st1].
    + apply IH. simpl in Hn. lia.
    + by rewrite task_run_ended.
    + by rewrite task_run_ended.
Qed.

(** ** The protocol on one connection *)

(** What a client reads out of the reply to [get]. *)
Lemma context_of_reply (ctx : json) :
  context_of (Some (resp_context ctx)) = Ok ctx.
Proof.
  unfold context_of, resp_context.
  rewrite (truthy_obj_lookup _ "type" (JStr "context")) by by simplify_map_eq.
  apply dict_get_present. by simplify_map_eq.
Qed.

(** C1, as stated, fails: after [set("hello")] the reply to [get] is not
    the object [{"data": "hello"}]; it carries a second field. *)
Lemma get_reply_is_not_bare_data :
  w_sent (daemon_handle
            [Data (Decodes (req_set (JStr "hello"))); Data (Decodes req_get)]
            writer_new (State_new 1)).1.2
  <> [resp_ok; JObj {[ "data" := JStr "hello" ]}].
Proof.
  intros H.
  apply (f_equal (fun l => match l !! 1%nat with
                           | Some (JObj m) => m !! "type"
                           | _ => None
                           end)) in H.
  vm_compute in H. discriminate H.
Qed.

(** C1 (amended): on every connection whose peer is still there, a [get]
    request is answered with exactly one object,
    [{"type": "context", "data": <current context>}]; the state is left as
    it is, and the [data] field a client reads from the reply is the
    current context. *)
Theorem get_reply (w : writer) (st : State) :
  w_fault w = None ->
  loop_body (Data (Decodes req_get)) w st
  = Next (writer_push w
            (JObj {[ "type" := JStr "context"; "data" := context st ]})) st
  /\ context_of
       (Some (JObj {[ "type" := JStr "context"; "data" := context st ]}))
     = Ok (context st).
Proof.
  intros Hw. split.
  - by apply loop_body_get.
  - apply context_of_reply.
Qed.

(** The end-to-end scenario: the context is ["hello"], the client asks. *)
Lemma get_reply_witness :
  w_fault writer_new = None
  /\ loop_body (Data (Decodes req_get)) writer_new
       {| pid := 1; context := JStr "hello" |}
     = Next (writer_push writer_new
               (JObj {[ "type" := JStr "context"; "data" := JStr "hello" ]}))
            {| pid := 1; context := JStr "hello" |}.
Proof.
  split; [reflexivity|].
  apply (get_reply writer_new {| pid := 1; context := JStr "hello" |}).
  reflexivity.
Defined.

(** ** Lines on the wire *)

Lemma len_app (s t : string) : len (s +:+ t) = len s + len t.
Proof.
  unfold len. induction s as [|c s IH]; [done|].
  change (String c s +:+ t) with (String c (s +:+ t)).
  cbn [String.length]. lia.
Qed.

Lemma dumps_length_str (repr : float -> string) (x : string) :
  dumps_length repr (JStr x) = 2 + len (escape x).
Proof.
  cbn [dumps_length]. unfold py_encode_basestring_ascii.
  change (len (String DQUOTE (escape x +:+ String DQUOTE "")))
    with (Z.of_nat (S (String.length (escape x +:+ String DQUOTE "")))).
  pose proof (len_app (escape x) (String DQUOTE "")) as H. unfold len in *.
  cbn [String.length] in H. lia.
Qed.


(** The line of the reply to [get]: [{"type": "context", "data": ...}]. *)
Lemma dumps_length_resp_context (repr : float -> string) (ctx : json) :
  dumps_length repr (resp_context ctx) = 29 + dumps_length repr ctx.
Proof.
  unfold resp_context. cbn [dumps_length].
  rewrite bool_decide_eq_false_2.
  2:{ intros H. apply (f_equal (fun m : gmap string json => m !! "type")) in H.
      vm_compute in H. discriminate H. }
  set (X := dumps_length repr ctx).
  set (f := fun (k : string) (x : json) (n : Z) => _).
  rewrite map_fold_insert_L; [|intros; subst f; cbv beta; lia|done].
  rewrite map_fold_singleton. subst f. cbv beta. fold X.
  change (dumps_length repr (JStr "context")) with 9.
  change (len (py_encode_basestring_ascii "type")) with 6.
  change (len (py_encode_basestring_ascii "data")) with 6. lia.
Qed.


Lemma line_fits_resp_context (repr : float -> string) (x : string) :
  line_fits repr (resp_context (JStr x))
  = bool_decide (31 + len (escape x) <= DEFAULT_LIMIT).
Proof.
  unfold line_fits. rewrite dumps_length_resp_context, dumps_length_str.
  apply bool_decide_ext. lia.
Qed.

Lemma line_fits_req_get (repr : float -> string) : line_fits repr req_get = true.
Proof. reflexivity. Qed.

Lemma line_fits_req_clear (repr : float -> string) :
  line_fits repr req_clear = true.
Proof. reflexivity. Qed.

Lemma line_fits_resp_ok (repr : float -> string) : line_fits repr resp_ok = true.
Proof. reflexivity. Qed.

Lemma received_fits (repr : float -> string) (obj : json) :
  line_fits repr obj = true -> received repr obj = Data (Decodes obj).
Proof. intros H. unfold received. by rewrite H. Qed.

Lemma received_long (repr : float -> string) (obj : json) :
  line_fits repr obj = false -> received repr obj = ReadError ValueError.
Proof. intros H. unfold received. by rewrite H. Qed.

(** A line that is too long ends the handler, with nothing done. *)
Lemma loop_body_long (repr : float -> string) (obj : json) (w : writer)
    (st : State) :
  line_fits repr obj = false ->
  loop_body (received repr obj) w st = Throw ValueError w st.
Proof. intros H. by rewrite received_long. Qed.




(** An escaped text is at least as long as the text, and at most six times
    as long. *)
Lemma escape_length (x : string) :
  len x <= len (escape x) <= 6 * len x.
Proof.
  induction x as [|c x IH]; [done|].
  cbn [escape]. rewrite len_app.
  assert (1 <= len (escape_char c) <= 6) as Hc.
  { destruct c as [[] [] [] [] [] [] [] []]; vm_compute; split; discriminate. }
  change (len (String c x)) with (Z.of_nat (S (String.length x))).
  unfold len in *. lia.
Qed.

(** What is written for a text of two lines with a tab, an accented letter
    and a backslash; and the length of a line with values of every kind. *)
Example escape_sample :
  escape ("a" +:+ String (ascii_of_nat 9) "b" +:+ NL
          +:+ String (ascii_of_nat 233) (String BACKSLASH ""))
  = "a\tb\n\u00e9\\".
Proof. reflexivity. Qed.

Example dumps_length_sample (repr : float -> string) :
  dumps_length repr
    (JObj {[ "k" := JArr [JNull; JBool true; JBool false; JInt (-12);
                          JFloat infinity; JFloat nan; JFloat neg_infinity;
                          JStr "x"; JObj ∅; JArr []];
             "z" := JInt 0 ]})
  = 78.
Proof. vm_compute. reflexivity. Qed.

(** ** Set, then get *)

(** The longest text of plain letters that a [set] carries: 65507 of them
    make a line of exactly 65536 characters, which the daemon reads and
    answers. *)
Example text_at_the_limit (repr : float -> string) :
  dumps_length repr (req_set (JStr (text_of 65507 "a"))) = DEFAULT_LIMIT
  /\ received repr (req_set (JStr (text_of 65507 "a")))
     = Data (Decodes (req_set (JStr (text_of 65507 "a"))))
  /\ w_sent (daemon_handle
               [received repr (req_set (JStr (text_of 65507 "a")))]
               writer_new (State_new 1)).1.2
     = [resp_ok].
Proof.
  split; [vm_compute; reflexivity|].
  split; [apply received_fits|]; vm_compute; reflexivity.
Qed.




(** ** Order on one connection *)




(** C10: a [set] request without a [data] field sets the context to the
    empty string and is answered [{"status": "ok"}]. *)
Theorem set_without_data (m : gmap string json) (w : writer) (st : State) :
  w_fault w = None ->
  m !! "action" = Some (JStr "set") ->
  m !! "data" = None ->
  loop_body (Data (Decodes (JObj m))) w st
  = Next (writer_push w (JObj {[ "status" := JStr "ok" ]}))
         {| pid := pid st; context := JStr "" |}.
Proof.
  intros Hw Haction Hdata. rewrite loop_body_decodes.
  rewrite (truthy_obj_lookup _ _ _ Haction). unfold dispatch.
  rewrite (dict_get_present _ _ _ _ Haction).
  rewrite (dict_get_absent _ _ _ Hdata).
  change (eq_str (JStr "set") "get") with false.
  change (eq_str (JStr "set") "set") with true. cbv iota.
  by apply send_then_healthy.
Qed.

Lemma set_without_data_witness :
  loop_body (Data (Decodes (JObj {[ "action" := JStr "set" ]}))) writer_new
    {| pid := 1; context := JStr "old" |}
  = Next (writer_push writer_new (JObj {[ "status" := JStr "ok" ]}))
         {| pid := 1; context := JStr "" |}.
Proof.
  apply (set_without_data {[ "action" := JStr "set" ]} writer_new
           {| pid := 1; context := JStr "old" |}).
  - reflexivity.
  - vm_compute. reflexivity.
  - vm_compute. reflexivity.
Defined.

(** The end-to-end scenario of the protocol, on one connection. *)
Example end_to_end :
  daemon_handle
    [Data (Decodes (req_set (JStr "hello"))); Data (Decodes req_get);
     Data (Decodes req_clear); Data (Decodes req_get)]
    writer_new (State_new 1)
  = (Returned,
     {| w_sent := [resp_ok; resp_context (JStr "hello"); resp_ok;
                   resp_context (JStr "")];
        w_fault := None; w_closing := true |},
     State_new 1).
Proof. reflexivity. Qed.

(** [clear] twice, then [get]: the context is empty each time. *)
Lemma clear_idempotent (w : writer) (st : State) :
  w_fault w = None ->
  (serve_loop [Data (Decodes req_clear)] w st).2
  = {| pid := pid st; context := JStr "" |}
  /\ daemon_handle
       [Data (Decodes req_clear); Data (Decodes req_clear);
        Data (Decodes req_get)] w st
     = (Returned,
        finally_close
          (writer_push (writer_push (writer_push w resp_ok) resp_ok)
             (resp_context (JStr ""))),
        {| pid := pid st; context := JStr "" |}).
Proof.
  intros Hw. unfold daemon_handle. cbn [serve_loop].
  rewrite !loop_body_clear by done. by rewrite loop_body_get.
Qed.

(** The state is shared by the connections: what one connection sets, a
    later one gets. *)
Lemma round_trip_across_connections (x : string) (st : State) :
  let s := {| s_state := st;
              s_conns := [connection_new [Data (Decodes (req_set (JStr x)))];
                          connection_new [Data (Decodes req_get)]];
              s_exit := None |} in
  let s' := server_run [0; 0; 1; 1]%nat s in
  s_state s' = {| pid := pid st; context := JStr x |}
  /\ s_conns s'
     = [ {| c_reader := []; c_writer := writer_close (writer_push writer_new resp_ok);
            c_ended := Some Returned |};
         {| c_reader := [];
            c_writer := writer_close
                          (writer_push writer_new (resp_context (JStr x)));
            c_ended := Some Returned |} ].
Proof.
  intros s s'. subst s s'. unfold server_run, server_step, task_step.
  cbn -[loop_body]. rewrite loop_body_set by done.
  cbn -[loop_body]. rewrite loop_body_get by done.
  done.
Qed.

(** ** Malformed lines and unsupported actions *)

(** C2, as stated, fails for an unsupported action: the connection is not
    closed.  The handler passes on to the next request, and answers it on
    the same connection. *)
Lemma unsupported_action_keeps_connection :
  loop_body (Data (Decodes (JObj {[ "action" := JStr "delete" ]})))
    writer_new (State_new 1)
  = Next writer_new (State_new 1)
  /\ w_sent (daemon_handle
               [Data (Decodes (JObj {[ "action" := JStr "delete" ]}));
                Data (Decodes req_get)] writer_new (State_new 1)).1.2
     = [resp_context (JStr "")].
Proof. split; reflexivity. Qed.

(** A line that cannot be decoded ends the task of its connection and
    nothing else. *)
Lemma server_step_undecodable (s : server) (i : nat) (c : connection)
    (r : reader) :
  s_exit s = None ->
  s_conns s !! i = Some c ->
  c_ended c = None ->
  c_reader c = Data Undecodable :: r ->
  server_step i s
  = {| s_state := s_state s;
       s_conns := <[i := {| c_reader := [];
                            c_writer := finally_close (c_writer c);
                            c_ended := Some (Raised ValueError) |}]> (s_conns s);
       s_exit := None |}.
Proof.
  intros Hexit Hi Hended Hr. unfold server_step, task_step.
  by rewrite Hexit, Hi, Hended, Hr.
Qed.

(** A turn of connection [j] depends on the shared state and on that
    connection only. *)
Lemma server_step_other (s s' : server) (j : nat) :
  s_exit s' = s_exit s ->
  s_state s' = s_state s ->
  s_conns s' !! j = s_conns s !! j ->
  s_state (server_step j s') = s_state (server_step j s)
  /\ s_conns (server_step j s') !! j = s_conns (server_step j s) !! j
  /\ s_exit (server_step j s') = s_exit (server_step j s).
Proof.
  intros Hexit Hstate Hj. unfold server_step. rewrite Hexit, Hstate, Hj.
  destruct (s_exit s) as [n|] eqn:Hs; [repeat split; congruence|].
  destruct (s_conns s !! j) as [c|] eqn:Hc; [|repeat split; congruence].
  destruct (task_step c (s_state s)) as [c' st']. simpl.
  rewrite !list_lookup_insert_eq; [done| |].
  - by apply lookup_lt_Some in Hc.
  - rewrite ?Hc in Hj. by apply lookup_lt_Some in Hj.
Qed.

(** No turn of a handler task ends the daemon. *)
Lemma server_step_no_exit (i : nat) (s : server) :
  s_exit s = None -> s_exit (server_step i s) = None.
Proof.
  intros Hexit. unfold server_step. rewrite Hexit.
  destruct (s_conns s !! i) as [c|]; [|done].
  by destruct (task_step c (s_state s)).
Qed.

Lemma server_run_no_exit (sched : list nat) (s : server) :
  s_exit s = None -> s_exit (server_run sched s) = None.
Proof.
  revert s. induction sched as [|i sched IH]; intros s Hexit; [done|].
  apply IH. by apply server_step_no_exit.
Qed.

(** Once the other end has closed without an answer, the client's
    [recv_json] returns [None]. *)
Lemma client_recv_closed (e : environ) (cw : world) :
  inbox cw = [] -> peer_open cw = false -> client_recv e cw = (Done None, cw).
Proof. intros Hin Hpeer. unfold client_recv. by rewrite Hin, Hpeer. Qed.

(** C2 (amended).  A line that is not JSON ends the handler of its own
    connection only: that connection is closed with nothing more written,
    the session state is untouched, the daemon keeps running whatever
    comes next, and every other connection is served exactly as it would
    have been.  A request with an unsupported action is skipped: nothing
    is written, the state is untouched, and the connection stays open for
    the next request.  A client whose connection was closed without a
    response reads [None] and takes the empty string as context. *)
Theorem bad_request_ends_one_exchange (s : server) (i : nat) (c : connection)
    (r : reader) (m : gmap string json) (w : writer) (st : State)
    (e : environ) (cw : world) :
  s_exit s = None ->
  s_conns s !! i = Some c ->
  c_ended c = None ->
  c_reader c = Data Undecodable :: r ->
  m <> ∅ ->
  unsupported m ->
  inbox cw = [] ->
  peer_open cw = false ->
  let s' := server_step i s in
  (s_state s' = s_state s
   /\ s_conns s' !! i
      = Some {| c_reader := [];
                c_writer := finally_close (c_writer c);
                c_ended := Some (Raised ValueError) |}
   /\ w_closing (finally_close (c_writer c)) = true
   /\ w_sent (finally_close (c_writer c)) = w_sent (c_writer c)
   /\ (forall sched, s_exit (server_run sched s') = None)
   /\ forall j, j <> i ->
        s_conns s' !! j = s_conns s !! j
        /\ s_state (server_step j s') = s_state (server_step j s)
        /\ s_conns (server_step j s') !! j = s_conns (server_step j s) !! j)
  /\ loop_body (Data (Decodes (JObj m))) w st = Next w st
  /\ client_recv e cw = (Done None, cw)
  /\ context_of None = Ok (JStr "").
Proof.
  intros Hexit Hi Hended Hr Hne Hun Hin Hpeer s'.
  assert (s' = _) as Hs'
    by exact (server_step_undecodable s i c r Hexit Hi Hended Hr).
  split; [|split; [by apply loop_body_unsupported|]];
    [|split; [by apply client_recv_closed|done]].
  split; [by rewrite Hs'|]. split.
  { rewrite Hs'. cbn [s_conns].
    apply list_lookup_insert_eq. by apply lookup_lt_Some in Hi. }
  split; [apply finally_close_closing|]. split; [apply finally_close_sent|].
  split.
  { intros sched. apply server_run_no_exit. by rewrite Hs'. }
  intros j Hj.
  assert (s_conns s' !! j = s_conns s !! j) as Hother.
  { rewrite Hs'. cbn [s_conns]. by apply list_lookup_insert_ne. }
  split; [done|].
  destruct (server_step_other s s' j) as (H1 & H2 & _); [by rewrite Hs'..|done|].
  done.
Qed.

(** Two connections: the first sends a line that is not JSON, the second a
    [get]; and a request for the action ["delete"]. *)
Lemma bad_request_ends_one_exchange_witness :
  let s := {| s_state := {| pid := 1; context := JStr "kept" |};
              s_conns := [connection_new [Data Undecodable];
                          connection_new [Data (Decodes req_get)]];
              s_exit := None |} in
  s_state (server_step 0 s) = {| pid := 1; context := JStr "kept" |}
  /\ s_exit (server_run [1%nat; 1%nat] (server_step 0 s)) = None
  /\ s_conns (server_step 1 (server_step 0 s)) !! 1%nat
     = s_conns (server_step 1 s) !! 1%nat
  /\ loop_body (Data (Decodes (JObj {[ "action" := JStr "delete" ]})))
       writer_new (State_new 1)
     = Next writer_new (State_new 1).
Proof.
  intros s.
  destruct (bad_request_ends_one_exchange s 0 (connection_new [Data Undecodable])
              [] {[ "action" := JStr "delete" ]} writer_new (State_new 1)
              {| read_stdin := None; GEMINI_API_KEY := None; getppid := 1;
                 call_gemini := fun _ _ _ => ""; py_str := fun _ => "" |}
              (mkWorld ∅ None None [] 0 None false [] [] [] "" ""))
    as ((Hstate & _ & _ & _ & Hexit & Hothers) & Hskip & _).
  - reflexivity.
  - reflexivity.
  - reflexivity.
  - reflexivity.
  - intros H. apply (f_equal (fun m : gmap string json => m !! "action")) in H.
    vm_compute in H. discriminate H.
  - repeat split; vm_compute; reflexivity.
  - reflexivity.
  - reflexivity.
  - split; [exact Hstate|]. split; [exact (Hexit [1%nat; 1%nat])|].
    split; [|exact Hskip].
    destruct (Hothers 1%nat) as (_ & _ & H); [lia|exact H].
Defined.

(** ** Session identity *)

Example str_int_zero : str_int 0 = "0".
Proof. reflexivity. Qed.

Example str_int_positive : str_int 40321 = "40321".
Proof. reflexivity. Qed.

Example str_int_negative : str_int (-12) = "-12".
Proof. reflexivity. Qed.

Lemma get_socket_path_unfold (p : Z) :
  get_socket_path p = String Ascii.zero ("llm-daemon-" +:+ str_int p).
Proof. reflexivity. Qed.

Lemma get_socket_path_abstract (p : Z) : is_abstract (get_socket_path p) = true.
Proof. reflexivity. Qed.

Lemma get_socket_path_has_nul (p : Z) : has_nul (get_socket_path p) = true.
Proof. reflexivity. Qed.

(** C7: the address is a function of the shell's process id alone, and two
    different process ids never get the same address. *)
Theorem get_socket_path_injective (p1 p2 : Z) :
  p1 <> p2 -> get_socket_path p1 <> get_socket_path p2.
Proof.
  intros Hne Heq. apply Hne. unfold get_socket_path in Heq.
  apply String.app_inj in Heq. unfold str_int in Heq.
  by apply (inj pretty) in Heq.
Qed.

Lemma get_socket_path_injective_witness :
  get_socket_path 1234 <> get_socket_path 1235.
Proof. apply (get_socket_path_injective 1234 1235). lia. Defined.

(** ** The channel after the daemon has ended *)

Lemma os_path_exists_socket (o : os) (p : Z) :
  os_path_exists o (get_socket_path p) = false.
Proof. reflexivity. Qed.

(** The [atexit] callback finds nothing at the daemon's address and leaves
    the system as it is. *)
Lemma cleanup_socket (o : os) (p : Z) : cleanup (get_socket_path p) o = Ok o.
Proof. reflexivity. Qed.

Lemma address_exists_socket (o : os) (p : Z) :
  address_exists o (get_socket_path p)
  = bool_decide (get_socket_path p ∈ abstract_bound o).
Proof. reflexivity. Qed.

(** The daemon that starts on a free address serves there. *)
Lemma run_daemon_loop_serving (shell_pid : Z) (o : os) :
  shell_pid <> 0 ->
  get_socket_path shell_pid ∉ abstract_bound o ->
  run_daemon_loop shell_pid o
  = ({| fs_sockets := fs_sockets o;
        abstract_bound := abstract_bound o ∪ {[get_socket_path shell_pid]} |},
     {| p_atexit := [get_socket_path shell_pid]; p_sigterm := Some 0;
        p_bound := Some (get_socket_path shell_pid); p_ran := [];
        p_status := None |}).
Proof.
  intros Hpid Hfree. unfold run_daemon_loop.
  destruct (Z.eqb_spec shell_pid 0) as [->|_]; [done|].
  rewrite os_path_exists_socket. unfold start_unix_server.
  rewrite get_socket_path_abstract. by rewrite bool_decide_eq_false_2.
Qed.

Lemma kernel_reclaim_socket (o : os) (p : process) (shell_pid : Z) :
  p_bound p = Some (get_socket_path shell_pid) ->
  address_exists (kernel_reclaim o p) (get_socket_path shell_pid) = false
  /\ fs_sockets (kernel_reclaim o p) = fs_sockets o.
Proof.
  intros Hb. unfold kernel_reclaim. rewrite Hb, get_socket_path_abstract.
  split; [|done]. rewrite address_exists_socket. simpl.
  apply bool_decide_eq_false. intros [_ Hout]%elem_of_difference.
  by apply Hout, elem_of_singleton.
Qed.

Lemma run_atexit_socket (o : os) (p : Z) :
  run_atexit [get_socket_path p] o = o.
Proof. reflexivity. Qed.

(** C3, as stated, fails: when the liveness check or SIGTERM ends the
    daemon, the registered cleanup callback is never run. *)
Lemma cleanup_hook_skipped :
  let o := {| fs_sockets := ∅; abstract_bound := ∅ |} in
  let '(o1, p1) := run_daemon_loop 1234 o in
  p_atexit p1 = [get_socket_path 1234]
  /\ p_status (terminate LivenessFailure o1 p1).2 = Some 0
  /\ p_ran (terminate LivenessFailure o1 p1).2 = []
  /\ p_status (terminate TermSignal o1 p1).2 = Some 0
  /\ p_ran (terminate TermSignal o1 p1).2 = [].
Proof. vm_compute. repeat split; reflexivity. Qed.

(** C3 (amended): however the serving daemon ends (liveness failure,
    SIGTERM, the interpreter exiting), its channel address, which existed
    while it served, no longer exists once the process has ended, and the
    file system is as it was before the daemon started: the address is a
    name of the abstract name space, which goes with the process. *)
Theorem channel_gone_after_termination (shell_pid : Z) (o : os)
    (t : termination) :
  shell_pid <> 0 ->
  get_socket_path shell_pid ∉ abstract_bound o ->
  let a := get_socket_path shell_pid in
  let serving := run_daemon_loop shell_pid o in
  let ended := terminate t serving.1 serving.2 in
  is_abstract a = true
  /\ (p_status serving.2 = None /\ p_bound serving.2 = Some a
      /\ address_exists serving.1 a = true)
  /\ is_Some (p_status ended.2)
  /\ address_exists ended.1 a = false
  /\ fs_sockets ended.1 = fs_sockets o.
Proof.
  intros Hpid Hfree a serving ended. subst a serving ended.
  split; [apply get_socket_path_abstract|].
  rewrite run_daemon_loop_serving by done. cbn [fst snd].
  split.
  { split; [done|]. split; [done|]. rewrite address_exists_socket. simpl.
    apply bool_decide_eq_true. set_solver. }
  set (o1 := {| fs_sockets := fs_sockets o;
                abstract_bound := abstract_bound o ∪ {[get_socket_path shell_pid]} |}).
  set (p1 := {| p_atexit := [get_socket_path shell_pid]; p_sigterm := Some 0;
                p_bound := Some (get_socket_path shell_pid); p_ran := [];
                p_status := None |}).
  destruct (kernel_reclaim_socket o1 p1 shell_pid eq_refl) as [Hgone Hfs].
  destruct t as [| |n]; unfold terminate; cbn [p_status p1 p_sigterm];
    unfold os__exit, interpreter_exit; cbn [fst snd p_status p_ran p_atexit p1];
    rewrite ?run_atexit_socket; by eauto.
Qed.

Lemma channel_gone_after_termination_witness :
  let o := {| fs_sockets := ∅; abstract_bound := ∅ |} in
  address_exists (run_daemon_loop 1234 o).1 (get_socket_path 1234) = true
  /\ address_exists
       (terminate TermSignal (run_daemon_loop 1234 o).1
          (run_daemon_loop 1234 o).2).1 (get_socket_path 1234) = false.
Proof.
  intros o.
  destruct (channel_gone_after_termination 1234 o TermSignal)
    as (_ & (_ & _ & Hserving) & _ & Hgone & _).
  - lia.
  - apply not_elem_of_empty.
  - split; [exact Hserving|exact Hgone].
Defined.

(** X25: which callbacks have run when the serving daemon has ended: the
    cleanup callback when the interpreter exits by itself, none when the
    liveness check or SIGTERM ends the process. *)
Lemma atexit_callbacks_run (shell_pid : Z) (o : os) (t : termination) :
  shell_pid <> 0 ->
  get_socket_path shell_pid ∉ abstract_bound o ->
  p_ran (terminate t (run_daemon_loop shell_pid o).1
           (run_daemon_loop shell_pid o).2).2
  = match t with
    | InterpreterExit _ => [get_socket_path shell_pid]
    | LivenessFailure | TermSignal => []
    end.
Proof.
  intros Hpid Hfree. rewrite run_daemon_loop_serving by done.
  by destruct t.
Qed.

(** A socket file, by contrast, survives [os._exit] and is removed by the
    cleanup callback when the interpreter exits. *)
Remark socket_file_needs_cleanup :
  let path := "/tmp/llm.sock" in
  let o := {| fs_sockets := {[path]}; abstract_bound := ∅ |} in
  let p := {| p_atexit := [path]; p_sigterm := Some 0; p_bound := Some path;
              p_ran := []; p_status := None |} in
  address_exists (terminate LivenessFailure o p).1 path = true
  /\ address_exists (terminate (InterpreterExit 0) o p).1 path = false.
Proof. split; vm_compute; reflexivity. Qed.

(** ** Liveness supervision *)

Lemma check_shell_alive_step (polls : nat) (target : nat -> kill_target)
    (now : nat) :
  check_shell_alive (S polls) target now
  = match target (now + 5)%nat with
    | OwnProcess => check_shell_alive polls target (now + 5)%nat
    | NoProcess => Exited 0 (now + 5)%nat
    | ForeignProcess => TaskFailed PermissionError (now + 5)%nat
    end.
Proof. simpl. by destruct (target (now + 5)%nat). Qed.

(** Once the shell is gone for good, the poll that follows finds it gone:
    the task exits at a poll no later than five seconds after, provided
    no poll before was refused. *)
Lemma check_shell_alive_exits (target : nat -> kill_target) (died : nat) :
  (forall t, (died <= t)%nat -> target t = NoProcess) ->
  (forall t, target t <> ForeignProcess) ->
  forall (k start : nat),
    (died <= start + 5 * S k)%nat ->
    exists (t_exit n : nat),
      (start < t_exit)%nat
      /\ (t_exit <= Nat.max died start + 5)%nat
      /\ target t_exit = NoProcess
      /\ forall polls, (n <= polls)%nat ->
           check_shell_alive polls target start = Exited 0 t_exit.
Proof.
  intros Hdead Hown k. induction k as [|k IH]; intros start Hk.
  - exists (start + 5)%nat, 1%nat. split; [lia|]. split; [lia|].
    assert (target (start + 5)%nat = NoProcess) as Ha by (apply Hdead; lia).
    split; [done|]. intros [|polls] Hp; [lia|].
    by rewrite check_shell_alive_step, Ha.
  - destruct (target (start + 5)%nat) eqn:Ha.
    + assert (start + 5 < died)%nat as Hlater.
      { destruct (Nat.le_gt_cases died (start + 5)) as [Hle|Hgt]; [|done].
        rewrite (Hdead _ Hle) in Ha. discriminate Ha. }
      destruct (IH (start + 5)%nat) as (t & n & Hlt & Hbound & Hgone & Hrun);
        [lia|].
      exists t, (S n). split; [lia|]. split; [lia|]. split; [done|].
      intros [|polls] Hp; [lia|].
      rewrite check_shell_alive_step, Ha. apply Hrun. lia.
    + exists (start + 5)%nat, 1%nat. split; [lia|]. split; [lia|].
      split; [done|]. intros [|polls] Hp; [lia|].
      by rewrite check_shell_alive_step, Ha.
    + by destruct (Hown (start + 5)%nat).
Qed.

(** As long as every poll can signal the shell, a daemon ends with its
    shell: once the shell's process id is no longer alive, the daemon exits
    at the next poll of the liveness task, at most five seconds later, and
    from then on its channel address does not exist. *)
Lemma daemon_ends_with_shell (target : nat -> kill_target) (shell_pid : Z)
    (start died : nat) (o : os) :
  shell_pid <> 0 ->
  get_socket_path shell_pid ∉ abstract_bound o ->
  (forall t, (died <= t)%nat -> target t = NoProcess) ->
  (forall t, target t <> ForeignProcess) ->
  exists (t_exit n : nat),
    (start < t_exit)%nat
    /\ (t_exit <= Nat.max died start + 5)%nat
    /\ target t_exit = NoProcess
    /\ forall polls, (n <= polls)%nat ->
         let '(o', p', s) := supervised_daemon polls target shell_pid start o in
         s = Exited 0 t_exit
         /\ p_status p' = Some 0
         /\ address_exists o' (get_socket_path shell_pid) = false.
Proof.
  intros Hpid Hfree Hdead Hown.
  destruct (check_shell_alive_exits target died Hdead Hown died start)
    as (t & n & Hlt & Hbound & Hgone & Hrun); [lia|].
  exists t, n. split; [done|]. split; [done|]. split; [done|].
  intros polls Hp. unfold supervised_daemon.
  rewrite run_daemon_loop_serving by done. cbn [p_status].
  rewrite (Hrun polls Hp). unfold os__exit. cbn [p_status].
  split; [done|]. split; [done|].
  by apply kernel_reclaim_socket.
Qed.

(** The shell of process id 1234 is alive until second 12; the daemon was
    started at second 0 and polls at seconds 5, 10, 15, ... *)
Example daemon_ends_at_second_15 :
  (supervised_daemon 10
     (fun t => if bool_decide (t < 12)%nat then OwnProcess else NoProcess)
     1234 0 {| fs_sockets := ∅; abstract_bound := ∅ |}).2 = Exited 0 15.
Proof. vm_compute. reflexivity. Qed.

(** A poll that is refused ends the liveness task, whatever comes after. *)
Lemma check_shell_alive_refused (polls : nat) (target : nat -> kill_target)
    (start : nat) :
  target (start + 5)%nat = ForeignProcess ->
  check_shell_alive (S polls) target start
  = TaskFailed PermissionError (start + 5)%nat.
Proof. intros H. by rewrite check_shell_alive_step, H. Qed.

(** C5: the daemon does not end with its shell when the shell's process
    belongs to another user.  The shell of process id 1234 is alive, and
    not the daemon's to signal, until second 7; the daemon is started at
    second 0.  The poll at second 5 raises [PermissionError], which
    [check_shell_alive] does not catch: the task ends there, and however
    long one waits after the shell has gone, the daemon has not exited and
    its address still exists. *)
Theorem daemon_outlives_foreign_shell (polls : nat) :
  let target :=
    fun t : nat => if bool_decide (t < 7)%nat then ForeignProcess else NoProcess in
  let '(o', p', s) :=
    supervised_daemon (S polls) target 1234 0
      {| fs_sockets := ∅; abstract_bound := ∅ |} in
  target 10%nat = NoProcess
  /\ s = TaskFailed PermissionError 5
  /\ p_status p' = None
  /\ address_exists o' (get_socket_path 1234) = true.
Proof.
  intros target. unfold supervised_daemon.
  rewrite run_daemon_loop_serving by (done || apply not_elem_of_empty).
  cbn [p_status]. rewrite check_shell_alive_refused by reflexivity.
  repeat split.
Qed.

(** ** Client *)

(** The liveness probe: what is printed, and the connection that is opened
    and closed again when a daemon listens. *)
Lemma probe_effect (path : string) (w : world) :
  exists w',
    probe path w = (Done tt, w')
    /\ listening w' = listening w /\ startup w' = startup w
    /\ booting w' = booting w /\ spawned w' = spawned w
    /\ sleeps w' = sleeps w /\ requests w' = requests w
    /\ generations w' = generations w /\ stderr w' = stderr w
    /\ stdout w'
       = (stdout w +:+ ("[Info] " +:+ INFO) +:+ NL)
         +:+ (if bool_decide (is_Some (listening w !! path))
              then "[Info] Daemon running" else "[Info] Daemon not running")
         +:+ NL
    /\ (link w', peer_open w', inbox w')
       = if bool_decide (is_Some (listening w !! path))
         then (None, false, []) else (link w, peer_open w, inbox w).
Proof.
  unfold probe, bind, try_except, print, open_unix_connection, close.
  cbn [listening startup booting spawned sleeps link peer_open inbox requests
       generations stdout stderr].
  destruct (listening w !! path) as [st|] eqn:Hl; eexists; (split; [reflexivity|]);
    cbn [listening startup booting spawned sleeps link peer_open inbox requests
         generations stdout stderr]; repeat split.
Qed.

(** C6: an invocation without arguments and without piped input only
    probes: it prints whether a daemon runs, ends with status 0, and
    leaves everything else as it was; no daemon is launched, no daemon
    starts or stops listening, and no request is sent.  When a daemon
    listens, the connection that was opened is closed again: the client
    ends with no connection and nothing to read; when none listens, no
    connection is made.  On the daemon's side a connection that is closed
    at once leaves the state alone. *)
Theorem bare_invocation_only_probes (e : environ) (a : Args) (w : world)
    (st : State) :
  help a = false ->
  isolated a = false ->
  clear a = false ->
  print_context a = false ->
  prompt a = [] ->
  given (read_stdin e) = false ->
  (let '(status, w') := main e a w in
   let running :=
     bool_decide (is_Some (listening w !! get_socket_path (getppid e))) in
   status = Some 0
   /\ listening w' = listening w /\ booting w' = booting w
   /\ spawned w' = spawned w /\ sleeps w' = sleeps w
   /\ requests w' = requests w /\ generations w' = generations w
   /\ stderr w' = stderr w
   /\ stdout w'
      = (stdout w +:+ ("[Info] " +:+ INFO) +:+ NL)
        +:+ (if running
             then "[Info] Daemon running" else "[Info] Daemon not running")
        +:+ NL
   /\ link w' = (if running then None else link w)
   /\ peer_open w' = (if running then false else peer_open w)
   /\ inbox w' = (if running then [] else inbox w))
  /\ daemon_handle [] writer_new st = (Returned, writer_close writer_new, st).
Proof.
  intros Hhelp Hiso Hclear Hprint Hprompt Hstdin. split; [|done].
  unfold main, run_client.
  rewrite Hhelp, Hiso, Hclear, Hprint, Hprompt, Hstdin.
  change (strip (join " " [])) with "". cbn [nonempty negb andb].
  destruct (probe_effect (get_socket_path (getppid e)) w)
    as (w' & -> & Hl & _ & Hb & Hsp & Hsl & Hr & Hg & Herr & Hout & Hconn).
  cbv zeta.
  destruct (bool_decide (is_Some (listening w !! get_socket_path (getppid e))));
    injection Hconn as -> -> ->; done.
Qed.

(** A daemon listens for the shell 4242: the probe connects, closes, and
    reports it. *)
Lemma bare_invocation_only_probes_witness :
  let e := {| read_stdin := None; GEMINI_API_KEY := None; getppid := 4242;
              call_gemini := fun _ _ _ => ""; py_str := fun _ => "" |} in
  let a := mkArgs false false false false false false false false [] in
  let w := mkWorld {[ get_socket_path 4242 := State_new 4242 ]}
             (Some 0%nat) None [] 0 None false [] [] [] "" "" in
  (main e a w).1 = Some 0
  /\ spawned (main e a w).2 = []
  /\ requests (main e a w).2 = []
  /\ link (main e a w).2 = None
  /\ listening (main e a w).2 = {[ get_socket_path 4242 := State_new 4242 ]}.
Proof.
  intros e a w.
  pose proof (bare_invocation_only_probes e a w (State_new 4242)
                eq_refl eq_refl eq_refl eq_refl eq_refl eq_refl) as [H _].
  destruct (main e a w) as [status w'].
  destruct H as (Hs & Hl & _ & Hsp & _ & Hr & _ & _ & _ & Hlink & _).
  split; [exact Hs|]. split; [exact Hsp|]. split; [exact Hr|].
  split; [exact Hlink|exact Hl].
Defined.

(** While no daemon listens at the address and the one that was launched
    needs more sleeps than there are attempts left, every attempt fails:
    the loop ends after exactly [attempts] sleeps with the one error
    report. *)
Lemma retry_connect_exhausted (attempts : nat) (path : string) (w : world) :
  listening w !! path = None ->
  (forall a st k, booting w = Some (a, st, k) -> (attempts <= k)%nat) ->
  exists w',
    retry_connect attempts path w = (Done false, w')
    /\ listening w' = listening w /\ spawned w' = spawned w
    /\ sleeps w' = (sleeps w + attempts)%nat
    /\ link w' = link w /\ requests w' = requests w
    /\ generations w' = generations w /\ stdout w' = stdout w
    /\ stderr w' = stderr w +:+ "[Error] Daemon failed to start." +:+ NL.
Proof.
  revert w. induction attempts as [|n IH]; intros w Hnone Hboot.
  - eexists. split; [reflexivity|]. cbn. repeat split. lia.
  - cbn [retry_connect]. unfold bind at 1. unfold sleep_100ms.
    set (lb := match booting w with
               | Some (a, st, O) => _
               | Some (a, st, S k) => _
               | None => _
               end).
    assert (lb.1 = listening w
            /\ forall a st k, lb.2 = Some (a, st, k) -> (n <= k)%nat) as [Hl Hb].
    { subst lb. destruct (booting w) as [[[a st] [|k]]|] eqn:Hbw; cbn.
      - specialize (Hboot a st 0%nat eq_refl). lia.
      - split; [done|]. intros a' st' k' [= _ _ <-].
        specialize (Hboot a st (S k) eq_refl). lia.
      - split; [done|]. intros ? ? ? [=]. }
    destruct lb as [l b]. cbn [fst snd] in Hl, Hb. subst l.
    set (w1 := mkWorld _ _ _ _ _ _ _ _ _ _ _ _).
    unfold bind at 1. unfold try_except, bind at 1, open_unix_connection.
    assert (listening w1 !! path = None) as -> by exact Hnone.
    cbn [ret].
    destruct (IH w1 Hnone Hb) as (w' & -> & Hl' & Hsp & Hsl & Hlk & Hr & Hg & Ho & He).
    exists w'. split; [reflexivity|].
    rewrite Hl', Hsp, Hsl, Hlk, Hr, Hg, Ho, He. subst w1. cbn.
    repeat split. lia.
Qed.

(** C4, as stated, fails in its last part: when the daemon cannot be
    reached the invocation reports the error and ends with status 0, not
    with a nonzero status. *)
Lemma failed_start_exits_zero :
  let e := {| read_stdin := None; GEMINI_API_KEY := Some "key";
              getppid := 4242; call_gemini := fun _ _ _ => "";
              py_str := fun _ => "" |} in
  let a := mkArgs false false false false false false false false ["hello"] in
  let w := mkWorld ∅ None None [] 0 None false [] [] [] "" "" in
  (main e a w).1 = Some 0
  /\ stderr (main e a w).2 = "[Error] Daemon failed to start." +:+ NL.
Proof. split; vm_compute; reflexivity. Qed.

(** C4 (amended): when no daemon listens at the shell's address, the
    client launches one and tries to connect again up to 20 times, with a
    sleep of 100 ms before each attempt; if the daemon is not there by
    then, the invocation prints the single line
    ["[Error] Daemon failed to start."] on standard error, sends nothing,
    prints nothing else, and ends, after exactly 20 sleeps, with exit
    status 0. *)
Theorem daemon_failed_to_start (e : environ) (a : Args) (w : world) :
  help a = false ->
  isolated a = false ->
  negb (given (read_stdin e)) && negb (nonempty (strip (join " " (prompt a))))
    && negb (print_context a) && negb (clear a) = false ->
  listening w !! get_socket_path (getppid e) = None ->
  (forall k, startup w = Some k -> (20 <= k)%nat) ->
  let '(status, w') := main e a w in
  status = Some 0
  /\ spawned w' = spawned w ++ [getppid e]
  /\ sleeps w' = (sleeps w + 20)%nat
  /\ stderr w' = stderr w +:+ "[Error] Daemon failed to start." +:+ NL
  /\ stdout w' = stdout w
  /\ listening w' = listening w
  /\ requests w' = requests w
  /\ generations w' = generations w.
Proof.
  intros Hhelp Hiso Hmode Hnone Hslow.
  unfold main, run_client. rewrite Hhelp, Hiso, Hmode.
  unfold bind at 1. unfold connect_or_start, try_except.
  unfold bind at 1. unfold open_unix_connection at 1. rewrite Hnone.
  unfold bind at 1. unfold run_daemon.
  set (w1 := mkWorld _ _ _ _ _ _ _ _ _ _ _ _).
  destruct (retry_connect_exhausted 20 (get_socket_path (getppid e)) w1)
    as (w' & -> & Hl & Hsp & Hsl & _ & Hr & Hg & Ho & He).
  - exact Hnone.
  - subst w1. cbn [booting]. intros a' st' k Hb.
    destruct (startup w) as [k0|] eqn:Hst; [|discriminate Hb].
    injection Hb as _ _ <-. by apply Hslow.
  - cbn [ret]. by rewrite Hl, Hsp, Hsl, Hr, Hg, Ho, He.
Qed.

(** A prompt is given, no daemon listens, and the one launched never comes
    up. *)
Lemma daemon_failed_to_start_witness :
  let e := {| read_stdin := None; GEMINI_API_KEY := Some "key";
              getppid := 4242; call_gemini := fun _ _ _ => "";
              py_str := fun _ => "" |} in
  let a := mkArgs false false false false false false false false ["hello"] in
  let w := mkWorld ∅ None None [] 0 None false [] [] [] "" "" in
  (main e a w).1 = Some 0
  /\ spawned (main e a w).2 = [4242]
  /\ sleeps (main e a w).2 = 20%nat.
Proof.
  intros e a w.
  pose proof (daemon_failed_to_start e a w eq_refl eq_refl eq_refl eq_refl) as H.
  destruct (main e a w) as [status w'].
  destruct H as (Hs & Hsp & Hsl & _).
  - intros k Hk. discriminate Hk.
  - split; [exact Hs|]. split; [exact Hsp|exact Hsl].
Defined.

(** When the launched daemon listens within the budget, the client gets
    its connection: here after the third sleep. *)
Example spawn_on_demand :
  let e := {| read_stdin := None; GEMINI_API_KEY := Some "key";
              getppid := 4242; call_gemini := fun _ _ _ => "";
              py_str := fun _ => "" |} in
  let a := mkArgs false false false false false true false false [] in
  let w := mkWorld ∅ (Some 2%nat) None [] 0 None false [] [] [] "" "" in
  (main e a w).1 = Some 0
  /\ sleeps (main e a w).2 = 3%nat
  /\ requests (main e a w).2 = [req_get]
  /\ stdout (main e a w).2 = "(empty)" +:+ NL
  /\ stderr (main e a w).2 = "".
Proof. repeat split; vm_compute; reflexivity. Qed.

(** ** The client never waits for an answer that does not come *)

Section Returns.
Context {A B : Type}.

Lemma returns_ret (a : A) (post : A -> world -> Prop) :
  returns (post a) (ret a) post.
Proof. intros w Hw. exact Hw. Qed.

Lemma returns_bind (pre : world -> Prop) (mid : A -> world -> Prop)
    (post : B -> world -> Prop) (c : Client A) (k : A -> Client B) :
  returns pre c mid ->
  (forall a, returns (mid a) (k a) post) ->
  returns pre (bind c k) post.
Proof.
  intros Hc Hk w Hw. unfold bind. specialize (Hc w Hw).
  destruct (c w) as [[a| |] w']; [|done..].
  exact (Hk a w' Hc).
Qed.

Lemma returns_weaken (pre pre' : world -> Prop) (post post' : A -> world -> Prop)
    (c : Client A) :
  returns pre' c post' ->
  (forall w, pre w -> pre' w) ->
  (forall a w, post' a w -> post a w) ->
  returns pre c post.
Proof.
  intros Hc Hpre Hpost w Hw. specialize (Hc w (Hpre w Hw)).
  destruct (c w) as [[a| |] w']; [|done..]. by apply Hpost.
Qed.

Lemma returns_lift (r : result A) (pre : world -> Prop) :
  returns pre (lift r) (fun _ w => pre w).
Proof. intros w Hw. by destruct r. Qed.

Lemma returns_try_except (pre : world -> Prop) (post : A -> world -> Prop)
    (c h : Client A) :
  returns pre c post ->
  returns (fun _ => True) h post ->
  returns pre (try_except c h) post.
Proof.
  intros Hc Hh w Hw. unfold try_except. specialize (Hc w Hw).
  destruct (c w) as [[a| |] w']; [done| |done].
  by apply Hh.
Qed.
End Returns.

(** Printing and the generation call leave the connection alone. *)
Lemma returns_print (s : string) (pre : world -> Prop) :
  (forall w, pre w -> pre (print s w).2) ->
  returns pre (print s) (fun _ w => pre w).
Proof. intros H w Hw. exact (H w Hw). Qed.

Lemma settled_print (s : string) (w : world) :
  settled w -> settled (print s w).2.
Proof. intros H. exact H. Qed.

Lemma settled_print_raw (s : string) (w : world) :
  settled w -> settled (print_raw s w).2.
Proof. intros H. exact H. Qed.

Lemma settled_print_err (s : string) (w : world) :
  settled w -> settled (print_err s w).2.
Proof. intros H. exact H. Qed.

Lemma returns_print_response (s : string) :
  returns settled (print_response s) (fun _ w => settled w).
Proof.
  intros w Hw. unfold print_response, bind.
  change (print_raw s w) with (Done tt, (print_raw s w).2).
  destruct (ends_with_NL s).
  - by apply settled_print_raw.
  - by apply settled_print, settled_print_raw.
Qed.

Lemma returns_generate (e : environ) (p k : string) (n : Z) :
  returns settled (generate e p k n) (fun _ w => settled w).
Proof. intros w H. exact H. Qed.

Lemma returns_close (pre : world -> Prop) :
  returns pre close (fun _ _ => True).
Proof. by intros w Hw. Qed.

(** Every request of the client is answered, or ends the connection. *)
Lemma returns_client_send (e : environ) (req : json) :
  client_request req ->
  returns settled (client_send e req) (fun _ w => pending w).
Proof.
  intros [r ->] w [Hin Hserved]. unfold client_send.
  destruct (link w) as [a|] eqn:Hlink.
  - destruct (peer_open w) eqn:Hopen.
    + destruct (Hserved Hopen) as (a' & st & Ha' & Hl).
      rewrite Hlink in Ha'. injection Ha' as <-. rewrite Hl.
      destruct (line_fits (float_repr e) (encode r)) eqn:Hfit.
      * rewrite received_fits by done. rewrite loop_body_request by done.
        cbn. rewrite Hin. split; [left; by eexists|].
        intros _. eexists a, _. split; [done|]. apply lookup_insert_eq.
      * rewrite loop_body_long by done. cbn. rewrite Hin.
        split; [by right|]. intros [=].
    + cbn. split; [by right|]. intros [=].
  - split; [right; split; [done|]|done].
    destruct (peer_open w) eqn:Hopen; [|done].
    destruct (Hserved Hopen) as (a & st & Ha & _). congruence.
Qed.

Lemma returns_client_recv (e : environ) :
  returns pending (client_recv e) (fun _ w => settled w).
Proof.
  intros w [[[v Hin]|[Hin Hclosed]] Hserved]; unfold client_recv; rewrite Hin.
  - by destruct (recv_json (Some (received (float_repr e) v))) as [r|ex].
  - rewrite Hclosed. by split.
Qed.

(** One round trip: a request, then its response. *)
Lemma returns_exchange {B} (e : environ) (req : json)
    (k : option json -> Client B) (post : B -> world -> Prop) :
  client_request req ->
  (forall msg, returns settled (k msg) post) ->
  returns settled (client_send e req ;; msg <- client_recv e ;; k msg) post.
Proof.
  intros Hreq Hk.
  eapply returns_bind; [by apply returns_client_send|]. intros ?. cbv beta.
  eapply returns_bind; [apply returns_client_recv|]. exact Hk.
Qed.

Lemma returns_ret_keep {A} (a : A) (pre : world -> Prop) :
  returns pre (ret a) (fun _ w => pre w).
Proof. by intros w Hw. Qed.

Lemma returns_print_settled (s : string) :
  returns settled (print s) (fun _ w => settled w).
Proof. apply returns_print. intros w. apply settled_print. Qed.

Lemma returns_print_err_settled (s : string) :
  returns settled (print_err s) (fun _ w => settled w).
Proof. intros w Hw. by apply settled_print_err. Qed.

(** Without a connection there is nothing to wait for. *)
Lemma returns_print_any (s : string) :
  returns (fun _ => True) (print s) (fun _ _ => True).
Proof. by intros w _. Qed.

Lemma returns_print_err_any (s : string) :
  returns (fun _ => True) (print_err s) (fun _ _ => True).
Proof. by intros w _. Qed.

Lemma returns_generate_any (e : environ) (p k : string) (n : Z) :
  returns (fun _ => True) (generate e p k n) (fun _ _ => True).
Proof. by intros w _. Qed.

Lemma returns_print_response_any (s : string) :
  returns (fun _ => True) (print_response s) (fun _ _ => True).
Proof.
  intros w _. unfold print_response, bind, print_raw, print.
  by destruct (ends_with_NL s).
Qed.

Lemma returns_print_all_any (l : list string) :
  returns (fun _ => True) (print_all l) (fun _ _ => True).
Proof.
  induction l as [|s l IH]; [by intros w _|].
  cbn [print_all]. eapply returns_bind; [apply returns_print_any|].
  intros ?; cbv beta. exact IH.
Qed.

Create HintDb returns.
#[local] Hint Resolve returns_close returns_print_settled
  returns_print_err_settled returns_generate returns_print_response
  returns_print_any returns_print_err_any returns_generate_any
  returns_print_response_any returns_print_all_any : returns.

(** One step of a proof that a piece of client code returns: the rule for
    the command at the head, or a case distinction on what it branches
    on. *)
Ltac returns_step :=
  cbv beta;
  first
    [ solve [auto 1 with returns]
    | apply returns_ret_keep
    | apply returns_lift
    | apply returns_exchange;
        [first [by exists ReqGet|by exists ReqClear|by eexists (ReqSet _)]
        |intros ?]
    | eapply returns_bind; [solve [eauto 1 with returns]|intros ?]
    | eapply returns_bind; [apply returns_lift|intros ?]
    | eapply returns_bind; [apply returns_ret_keep|intros ?]
    | match goal with
      | |- returns _ (bind (bind _ _) _) _ =>
          eapply returns_bind with (mid := fun _ w => settled w); [|intros ?]
      end
    | match goal with
      | |- returns _ ?c _ =>
          match c with
          | context [match ?x with _ => _ end] => destruct x
          end
      end ].

(** Once connected, [run_client] goes through its exchanges with the
    daemon without ever blocking. *)
Lemma returns_session (e : environ) (a : Args) (user_prompt : string) :
  returns settled (session e a user_prompt) (fun _ _ => True).
Proof.
  unfold session.
  eapply returns_bind with (mid := fun _ w => settled w).
  - repeat returns_step.
  - intros ?; cbv beta. repeat returns_step.
Qed.

Lemma returns_isolated_mode (e : environ) (a : Args) (user_prompt : string) :
  returns (fun _ => True) (isolated_mode e a user_prompt) (fun _ _ => True).
Proof. unfold isolated_mode. repeat returns_step. Qed.

Lemma returns_open (path : string) :
  returns (fun _ => True) (open_unix_connection path)
    (fun _ w => settled w).
Proof.
  intros w _. unfold open_unix_connection.
  destruct (listening w !! path) as [st|] eqn:Hl; [|done].
  split; [done|]. intros _. by exists path, st.
Qed.

Lemma returns_probe (path : string) :
  returns (fun _ => True) (probe path) (fun _ _ => True).
Proof.
  unfold probe. eapply returns_bind; [apply returns_print_any|]. intros ?; cbv beta.
  apply returns_try_except; [|apply returns_print_any].
  eapply returns_bind; [apply returns_open|]. intros ?; cbv beta.
  repeat returns_step.
Qed.

Lemma returns_attempt (path : string) :
  returns (fun _ => True)
    (try_except (open_unix_connection path ;; ret true) (ret false))
    connected_if.
Proof.
  apply returns_try_except; [|by intros w _].
  eapply returns_bind; [apply returns_open|]. by intros ? w Hw.
Qed.

Lemma returns_sleep_100ms :
  returns (fun _ => True) sleep_100ms (fun _ _ => True).
Proof.
  intros w _. unfold sleep_100ms.
  by destruct (booting w) as [[[a st] [|k]]|].
Qed.

Lemma returns_run_daemon (shell_pid : Z) :
  returns (fun _ => True) (run_daemon shell_pid) (fun _ _ => True).
Proof. by intros w _. Qed.

Lemma returns_retry_connect (attempts : nat) (path : string) :
  returns (fun _ => True) (retry_connect attempts path) connected_if.
Proof.
  induction attempts as [|n IH]; cbn [retry_connect].
  - eapply returns_bind; [apply returns_print_err_any|]. by intros ? w _.
  - eapply returns_bind; [apply returns_sleep_100ms|].
    intros ?; cbv beta. eapply returns_bind; [apply returns_attempt|].
    intros [|]; [by intros w Hw|].
    eapply returns_weaken; [exact IH|done..].
Qed.

Lemma returns_connect_or_start (shell_pid : Z) (path : string) :
  returns (fun _ => True) (connect_or_start shell_pid path) connected_if.
Proof.
  unfold connect_or_start. apply returns_try_except.
  - eapply returns_bind; [apply returns_open|]. by intros ? w Hw.
  - eapply returns_bind; [apply returns_run_daemon|].
    intros ?; cbv beta. apply returns_retry_connect.
Qed.

Lemma returns_run_client (e : environ) (a : Args) :
  returns (fun _ => True) (run_client e a) (fun _ _ => True).
Proof.
  unfold run_client.
  destruct (help a); [apply returns_print_all_any|].
  destruct (isolated a); [apply returns_isolated_mode|].
  destruct (_ && _); [apply returns_probe|].
  eapply returns_bind; [apply returns_connect_or_start|].
  intros [|]; [apply returns_session|by intros w _].
Qed.

(** X24: every invocation of the client ends with an exit status: each
    request the client makes is answered by the daemon or ends the
    connection, and the wait for a daemon that does not come up is
    bounded. *)
Theorem main_ends (e : environ) (a : Args) (w : world) :
  is_Some (main e a w).1.
Proof.
  unfold main. pose proof (returns_run_client e a w I) as H.
  destruct (run_client e a w) as [[[]|ex|] w']; [by eexists| |done].
  destruct ex; by eexists.
Qed.

(** * Further properties of the daemon *)

Lemma send_then_pid (w : writer) (obj : json) (st : State) :
  match send_then w obj st with
  | Next _ st' | Break _ st' | Throw _ _ st' => st' = st
  end.
Proof.
  unfold send_then. destruct (send_json w obj) as [[[]|e] w']; done.
Qed.

Lemma loop_body_pid (ev : read_event) (w : writer) (st : State) :
  match loop_body ev w st with
  | Next _ st' | Break _ st' | Throw _ _ st' => pid st' = pid st
  end.
Proof.
  unfold loop_body.
  destruct (recv_json (Some ev)) as [[data|]|e]; [|done..].
  destruct (truthy data); [|done]. unfold dispatch.
  destruct (dict_get data "action" JNull) as [action|e]; [|done].
  destruct (eq_str action "get").
  { pose proof (send_then_pid w (resp_context (context st)) st) as H.
    destruct (send_then w (resp_context (context st)) st); by subst. }
  destruct (eq_str action "set").
  { destruct (dict_get data "data" (JStr "")) as [d|e]; [|done].
    pose proof (send_then_pid w resp_ok {| pid := pid st; context := d |}) as H.
    destruct (send_then w resp_ok _); by subst. }
  destruct (eq_str action "clear"); [|done].
  pose proof (send_then_pid w resp_ok {| pid := pid st; context := JStr "" |}) as H.
  destruct (send_then w resp_ok _); by subst.
Qed.

Lemma serve_loop_pid (r : reader) (w : writer) (st : State) :
  pid (serve_loop r w st).2 = pid st.
Proof.
  revert w st. induction r as [|ev r IH]; intros w st; [done|].
  cbn [serve_loop]. pose proof (loop_body_pid ev w st) as H.
  destruct (loop_body ev w st) as [w' st'|w' st'|e w' st']; cbn [snd]; [|done..].
  by rewrite IH.
Qed.

Lemma daemon_handle_state (r : reader) (w : writer) (st : State) :
  (daemon_handle r w st).2 = (serve_loop r w st).2.
Proof.
  unfold daemon_handle. by destruct (serve_loop r w st) as [[[|e] w'] st'].
Qed.

(** X1: whatever arrives on a connection and however the handler ends, by
    then [close] has been called on the writer, what had been written
    before is still the beginning of what has been written, and the
    process id recorded in the state is the one the daemon was started
    with. *)
Theorem daemon_handle_always (r : reader) (w : writer) (st : State) :
  w_closing (daemon_handle r w st).1.2 = true
  /\ w_sent w `prefix_of` w_sent (daemon_handle r w st).1.2
  /\ pid (daemon_handle r w st).2 = pid st.
Proof.
  split; [apply daemon_handle_closes|].
  split; [rewrite daemon_handle_sent; apply serve_loop_sent|].
  rewrite daemon_handle_state. apply serve_loop_pid.
Qed.

Lemma loop_body_keeps_state (ev : read_event) (w : writer) (st : State) :
  mutates ev = false ->
  match loop_body ev w st with
  | Next _ st' | Break _ st' | Throw _ _ st' => st' = st
  end.
Proof.
  intros Hev. unfold loop_body.
  destruct (recv_json (Some ev)) as [[data|]|e] eqn:Hrecv; [|done..].
  destruct (truthy data); [|done].
  destruct ev as [[v|]|e]; simpl in Hrecv; [|done|by destruct (recv_catches e)].
  injection Hrecv as <-. unfold dispatch.
  destruct v as [| | | | | |m]; try done. unfold mutates in Hev.
  cbn [dict_get]. cbv zeta in Hev.
  apply orb_false_iff in Hev as [Hset Hclear]. rewrite Hset, Hclear.
  destruct (eq_str (default JNull (m !! "action")) "get"); [|done].
  apply send_then_pid.
Qed.

(** X2: only [set] and [clear] change the context.  A connection on which
    neither arrives, whatever else does (requests for [get], unknown
    actions, values that are no objects, lines that are not JSON, transport
    errors), leaves the state exactly as it was. *)
Theorem only_set_and_clear_mutate (r : reader) (w : writer) (st : State) :
  forallb (fun ev => negb (mutates ev)) r = true ->
  (daemon_handle r w st).2 = st.
Proof.
  rewrite daemon_handle_state. revert w st.
  induction r as [|ev r IH]; intros w st Hr; [done|].
  cbn [forallb] in Hr. apply andb_true_iff in Hr as [Hev Hr].
  apply negb_true_iff in Hev. cbn [serve_loop].
  pose proof (loop_body_keeps_state ev w st Hev) as H.
  destruct (loop_body ev w st) as [w' st'|w' st'|e w' st']; cbn [snd]; subst;
    [by apply IH|done..].
Qed.

Lemma only_set_and_clear_mutate_witness :
  (daemon_handle
     [Data (Decodes req_get);
      Data (Decodes (JObj {[ "action" := JStr "delete"; "data" := JStr "x" ]}));
      Data Undecodable]
     writer_new {| pid := 7; context := JStr "kept" |}).2
  = {| pid := 7; context := JStr "kept" |}.
Proof.
  apply (only_set_and_clear_mutate
           [Data (Decodes req_get);
            Data (Decodes (JObj {[ "action" := JStr "delete"; "data" := JStr "x" ]}));
            Data Undecodable]
           writer_new {| pid := 7; context := JStr "kept" |}).
  vm_compute. reflexivity.
Defined.

(** A request of the protocol always reaches the write of its response,
    with the context already updated. *)
Lemma loop_body_request_send (r : request) (w : writer) (st : State) :
  loop_body (Data (Decodes (encode r))) w st
  = send_then w (respond (context st) r).1
      {| pid := pid st; context := (respond (context st) r).2 |}.
Proof.
  rewrite loop_body_decodes. destruct r as [|d|]; cbn [encode respond fst snd].
  - change (truthy req_get) with true. cbv iota. unfold dispatch.
    change (dict_get req_get "action" JNull) with (Ok (JStr "get")).
    change (eq_str (JStr "get") "get") with true. cbv iota. by destruct st.
  - rewrite req_set_truthy. unfold dispatch.
    rewrite req_set_action, req_set_data.
    change (eq_str (JStr "set") "get") with false.
    change (eq_str (JStr "set") "set") with true. done.
  - change (truthy req_clear) with true. cbv iota. unfold dispatch.
    change (dict_get req_clear "action" JNull) with (Ok (JStr "clear")).
    change (eq_str (JStr "clear") "get") with false.
    change (eq_str (JStr "clear") "set") with false.
    change (eq_str (JStr "clear") "clear") with true. done.
Qed.

Lemma send_then_lost (w : writer) (obj : json) (st : State) (e : exn) :
  w_fault w = Some e -> send_catches e = true -> send_then w obj st = Break w st.
Proof. intros Hw He. unfold send_then, send_json. by rewrite Hw, He. Qed.

(** X3: when the peer has gone away (writing meets a broken pipe or a
    connection reset), the request that was read is still carried out: a
    [set] or [clear] whose response is lost has changed the context all the
    same.  Nothing is written, no error leaves the handler, and the
    handler stops there: whatever else the peer had sent is not read. *)
Theorem request_applies_without_reader (r : request) (rest : reader)
    (w : writer) (st : State) (e : exn) :
  w_fault w = Some e ->
  send_catches e = true ->
  daemon_handle (Data (Decodes (encode r)) :: rest) w st
  = (Returned, finally_close w,
     {| pid := pid st; context := (respond (context st) r).2 |}).
Proof.
  intros Hw He. unfold daemon_handle. cbn [serve_loop].
  rewrite loop_body_request_send. by rewrite (send_then_lost _ _ _ e Hw He).
Qed.

Lemma request_applies_without_reader_witness :
  daemon_handle
    [Data (Decodes (req_set (JStr "unseen")));
     Data (Decodes (req_set (JStr "unread")))]
    {| w_sent := []; w_fault := Some BrokenPipeError; w_closing := false |}
    (State_new 7)
  = (Returned,
     {| w_sent := []; w_fault := Some BrokenPipeError; w_closing := true |},
     {| pid := 7; context := JStr "unseen" |}).
Proof.
  apply (request_applies_without_reader (ReqSet (JStr "unseen"))
           [Data (Decodes (req_set (JStr "unread")))]
           {| w_sent := []; w_fault := Some BrokenPipeError; w_closing := false |}
           (State_new 7) BrokenPipeError); reflexivity.
Defined.

(** X4: a line that decodes to something else than an object ends the
    connection at once, with nothing written, the state untouched and the
    rest of the stream unread: with [AttributeError] leaving the handler
    when the value is true in Python's sense (a non-empty list or string, a
    non-zero number, [true]), quietly when it is false ([null], [false],
    zero, the empty string or list).  The empty object ends the connection
    quietly too. *)
Theorem non_object_ends_connection (v : json) (r : reader) (w : writer)
    (st : State) :
  is_dict v = false ->
  daemon_handle (Data (Decodes v) :: r) w st
  = (if truthy v then Raised AttributeError else Returned, finally_close w, st)
  /\ daemon_handle (Data (Decodes (JObj ∅)) :: r) w st
     = (Returned, finally_close w, st).
Proof.
  intros Hv. split; [|done].
  unfold daemon_handle. cbn [serve_loop]. rewrite loop_body_decodes.
  destruct (truthy v) eqn:Ht; [|done].
  unfold dispatch. by destruct v.
Qed.

Lemma non_object_ends_connection_witness :
  daemon_handle [Data (Decodes (JArr [req_get])); Data (Decodes req_get)]
    writer_new (State_new 7)
  = (Raised AttributeError, writer_close writer_new, State_new 7)
  /\ daemon_handle [Data (Decodes (JInt 0)); Data (Decodes req_get)]
       writer_new (State_new 7)
     = (Returned, writer_close writer_new, State_new 7).
Proof.
  split.
  - apply (non_object_ends_connection (JArr [req_get]) [Data (Decodes req_get)]
             writer_new (State_new 7)). reflexivity.
  - apply (non_object_ends_connection (JInt 0) [Data (Decodes req_get)]
             writer_new (State_new 7)). reflexivity.
Defined.

Lemma send_then_length (w : writer) (obj : json) (st : State) :
  match send_then w obj st with
  | Next w' _ | Break w' _ | Throw _ w' _ =>
      (length (w_sent w') <= S (length (w_sent w)))%nat
  end.
Proof.
  unfold send_then, send_json. destruct (w_fault w) as [e|].
  - destruct (send_catches e); simpl; lia.
  - simpl. rewrite length_app. simpl. lia.
Qed.

Lemma loop_body_length (ev : read_event) (w : writer) (st : State) :
  match loop_body ev w st with
  | Next w' _ | Break w' _ | Throw _ w' _ =>
      (length (w_sent w') <= S (length (w_sent w)))%nat
  end.
Proof.
  unfold loop_body.
  destruct (recv_json (Some ev)) as [[data|]|e]; [|lia..].
  destruct (truthy data); [|lia]. unfold dispatch.
  destruct (dict_get data "action" JNull) as [action|e]; [|lia].
  destruct (eq_str action "get"); [apply send_then_length|].
  destruct (eq_str action "set").
  { destruct (dict_get data "data" (JStr "")); [apply send_then_length|lia]. }
  destruct (eq_str action "clear"); [apply send_then_length|lia].
Qed.

(** X5: the daemon never writes more than one object per line it has read:
    on any connection the number of objects written grows by at most the
    number of read events. *)
Theorem at_most_one_reply_per_line (r : reader) (w : writer) (st : State) :
  (length (w_sent (daemon_handle r w st).1.2)
   <= length (w_sent w) + length r)%nat.
Proof.
  rewrite daemon_handle_sent. revert w st.
  induction r as [|ev r IH]; intros w st; cbn [serve_loop length]; [simpl; lia|].
  pose proof (loop_body_length ev w st) as H.
  destruct (loop_body ev w st) as [w' st'|w' st'|e w' st']; cbn [fst snd];
    [|lia..].
  specialize (IH w' st'). lia.
Qed.

Lemma respond_all_app (ctx : json) (rs1 rs2 : list request) :
  respond_all ctx (rs1 ++ rs2)
  = ((respond_all ctx rs1).1 ++ (respond_all (respond_all ctx rs1).2 rs2).1,
     (respond_all (respond_all ctx rs1).2 rs2).2).
Proof.
  revert ctx. induction rs1 as [|r rs1 IH]; intros ctx.
  - simpl. by destruct (respond_all ctx rs2).
  - cbn [app respond_all]. destruct (respond ctx r) as [v ctx'].
    rewrite IH. by destruct (respond_all ctx' rs1).
Qed.

(** X6: [clear] resets the context whatever came before, and doing it
    again changes nothing: after any requests followed by [clear], [clear],
    [get], the context is the empty string and the last three replies are
    [ok], [ok] and the empty context. *)
Theorem clear_resets (rs : list request) (w : writer) (st : State) :
  w_fault w = None ->
  let r := map (fun r => Data (Decodes (encode r)))
               (rs ++ [ReqClear; ReqClear; ReqGet]) in
  context (daemon_handle r w st).2 = JStr ""
  /\ w_sent (daemon_handle r w st).1.2
     = w_sent w ++ (respond_all (context st) rs).1
         ++ [resp_ok; resp_ok; resp_context (JStr "")].
Proof.
  intros Hw r. subst r.
  rewrite daemon_handle_state, daemon_handle_sent, serve_loop_in_order by done.
  cbn [fst snd context w_sent]. rewrite respond_all_app. cbn [fst snd].
  done.
Qed.

Lemma clear_resets_witness :
  context (daemon_handle
             (map (fun r => Data (Decodes (encode r)))
                  ([ReqSet (JStr "old")] ++ [ReqClear; ReqClear; ReqGet]))
             writer_new (State_new 7)).2
  = JStr "".
Proof.
  apply (clear_resets [ReqSet (JStr "old")] writer_new (State_new 7)).
  reflexivity.
Defined.

(** ** Connections served together *)

Lemma send_then_reply_in (P : json -> Prop) (w : writer) (obj : json)
    (st : State) :
  reply_in P obj ->
  Forall (reply_in P) (w_sent w) ->
  match send_then w obj st with
  | Next w' st' | Break w' st' | Throw _ w' st' =>
      st' = st /\ Forall (reply_in P) (w_sent w')
  end.
Proof.
  intros Hobj Hw. unfold send_then, send_json. destruct (w_fault w) as [e|].
  - by destruct (send_catches e).
  - simpl. split; [done|]. apply Forall_app. by split; [|apply Forall_singleton].
Qed.

Lemma loop_body_in (P : json -> Prop) (ev : read_event) (w : writer)
    (st : State) :
  P (JStr "") ->
  P (context st) ->
  payload_in P ev ->
  Forall (reply_in P) (w_sent w) ->
  match loop_body ev w st with
  | Next w' st' | Break w' st' | Throw _ w' st' =>
      P (context st') /\ Forall (reply_in P) (w_sent w')
  end.
Proof.
  intros Hempty Hst Hev Hw. unfold loop_body.
  destruct (recv_json (Some ev)) as [[data|]|e] eqn:Hrecv; [|done..].
  destruct (truthy data); [|done].
  destruct ev as [[v|]|e]; simpl in Hrecv; [|done|by destruct (recv_catches e)].
  injection Hrecv as <-. unfold dispatch.
  destruct v as [| | | | | |m]; try done. cbn [dict_get].
  destruct (eq_str (default JNull (m !! "action")) "get").
  { pose proof (send_then_reply_in P w (resp_context (context st)) st) as H.
    destruct (send_then w (resp_context (context st)) st);
      (destruct H as [-> H]; [right; by eexists|done|done]). }
  destruct (eq_str (default JNull (m !! "action")) "set").
  { assert (P (default (JStr "") (m !! "data"))) as Hd.
    { destruct (m !! "data") as [d|] eqn:Hmd; [by eapply Hev|done]. }
    pose proof (send_then_reply_in P w resp_ok
                  {| pid := pid st; context := default (JStr "") (m !! "data") |})
      as H.
    destruct (send_then w resp_ok _);
      (destruct H as [-> H]; [by left|done|done]). }
  destruct (eq_str (default JNull (m !! "action")) "clear"); [|done].
  pose proof (send_then_reply_in P w resp_ok
                {| pid := pid st; context := JStr "" |}) as H.
  destruct (send_then w resp_ok _); (destruct H as [-> H]; [by left|done|done]).
Qed.

Lemma task_step_in (P : json -> Prop) (c : connection) (st : State) :
  P (JStr "") ->
  P (context st) ->
  connection_in P c ->
  P (context (task_step c st).2) /\ connection_in P (task_step c st).1.
Proof.
  intros Hempty Hst [Hr Hw]. unfold task_step.
  destruct (c_ended c); [done|].
  destruct (c_reader c) as [|ev r] eqn:Hc.
  { split; [done|]. split; [done|]. cbn. by rewrite finally_close_sent. }
  apply Forall_cons in Hr as [Hev Hr].
  pose proof (loop_body_in P ev (c_writer c) st Hempty Hst Hev Hw) as H.
  destruct (loop_body ev (c_writer c) st) as [w' st'|w' st'|e w' st'];
    destruct H as [H1 H2]; (split; [done|]); split; cbn;
    rewrite ?finally_close_sent; done.
Qed.

Lemma server_step_in (P : json -> Prop) (i : nat) (s : server) :
  P (JStr "") ->
  P (context (s_state s)) ->
  Forall (connection_in P) (s_conns s) ->
  P (context (s_state (server_step i s)))
  /\ Forall (connection_in P) (s_conns (server_step i s)).
Proof.
  intros Hempty Hst Hconns. unfold server_step.
  destruct (s_exit s); [done|].
  destruct (s_conns s !! i) as [c|] eqn:Hc; [|done].
  assert (connection_in P c) as Hin.
  { eapply Forall_forall; [exact Hconns|]. by eapply list_elem_of_lookup_2. }
  pose proof (task_step_in P c (s_state s) Hempty Hst Hin) as [H1 H2].
  destruct (task_step c (s_state s)) as [c' st']. cbn in *.
  split; [done|]. by apply Forall_insert.
Qed.

(** X7: connections served together never see a torn context.  Let [P]
    hold of the empty string, of the context the daemon holds, and of
    every [data] payload that any connection has still to deliver.  Then
    whatever the order in which the handler tasks get their turns, [P]
    holds of the context at all times and of every context written in
    reply to a [get]: a client reads the initial context, the empty string,
    or a payload some [set] carried, whole. *)
Theorem no_torn_context (P : json -> Prop) (sched : list nat) (s : server) :
  P (JStr "") ->
  P (context (s_state s)) ->
  Forall (connection_in P) (s_conns s) ->
  P (context (s_state (server_run sched s)))
  /\ Forall (fun c => Forall (reply_in P) (w_sent (c_writer c)))
       (s_conns (server_run sched s)).
Proof.
  intros Hempty. revert s. induction sched as [|i sched IH]; intros s Hst Hconns.
  - split; [done|]. eapply Forall_impl; [exact Hconns|]. by intros c [_ H].
  - cbn [server_run foldl].
    destruct (server_step_in P i s Hempty Hst Hconns) as [H1 H2].
    exact (IH (server_step i s) H1 H2).
Qed.

(** Two clients write ["A"] and ["B"] while a third reads twice. *)
Lemma no_torn_context_witness :
  let P := fun v => v = JStr "" \/ v = JStr "A" \/ v = JStr "B" in
  let s := {| s_state := State_new 7;
              s_conns := [connection_new [Data (Decodes (req_set (JStr "A")))];
                          connection_new [Data (Decodes (req_set (JStr "B")))];
                          connection_new [Data (Decodes req_get);
                                          Data (Decodes req_get)]];
              s_exit := None |} in
  P (context (s_state (server_run [2; 0; 1; 2; 2; 0; 1]%nat s))).
Proof.
  intros P s.
  apply (no_torn_context P [2; 0; 1; 2; 2; 0; 1]%nat s).
  - by left.
  - by left.
  - assert (forall x, P x -> payload_in P (Data (Decodes (req_set x)))) as Hset.
    { intros x Hx m d [= <-] Hd.
      rewrite lookup_insert_ne, lookup_singleton_eq in Hd by done.
      by injection Hd as <-. }
    assert (payload_in P (Data (Decodes req_get))) as Hget.
    { intros m d [= <-] Hd. by rewrite lookup_singleton_ne in Hd. }
    repeat apply Forall_cons_2; try apply Forall_nil_2;
      (split; [|apply Forall_nil_2]); repeat apply Forall_cons_2;
      try apply Forall_nil_2; try done.
    + apply Hset. right; by left.
    + apply Hset. right; by right.
Defined.

(** * Further properties of the daemon process *)

Lemma kernel_reclaim_fs (o : os) (p : process) :
  fs_sockets (kernel_reclaim o p) = fs_sockets o.
Proof.
  unfold kernel_reclaim. destruct (p_bound p) as [a|]; [|done].
  by destruct (is_abstract a).
Qed.

Lemma run_daemon_loop_atexit (shell_pid : Z) (o : os) :
  p_atexit (run_daemon_loop shell_pid o).2 = []
  \/ p_atexit (run_daemon_loop shell_pid o).2 = [get_socket_path shell_pid].
Proof.
  unfold run_daemon_loop. destruct (shell_pid =? 0); [by left|].
  rewrite os_path_exists_socket.
  destruct (start_unix_server o (get_socket_path shell_pid)); by right.
Qed.

Lemma run_daemon_loop_fs (shell_pid : Z) (o : os) :
  fs_sockets (run_daemon_loop shell_pid o).1 = fs_sockets o.
Proof.
  unfold run_daemon_loop. destruct (shell_pid =? 0); [done|].
  rewrite os_path_exists_socket. unfold start_unix_server.
  rewrite get_socket_path_abstract.
  by destruct (bool_decide (get_socket_path shell_pid ∈ abstract_bound o)).
Qed.

(** X8: the daemon never creates or removes a file.  Its address lies in
    the abstract name space and contains a NUL, so the check for a stale
    socket file before binding never finds one, and the cleanup callback
    never removes one: whatever the process id, whatever the state of the
    system, and however the daemon ends, the socket files are those that
    were there before it started. *)
Theorem daemon_leaves_files_alone (shell_pid : Z) (o : os) (t : termination) :
  fs_sockets (run_daemon_loop shell_pid o).1 = fs_sockets o
  /\ fs_sockets (terminate t (run_daemon_loop shell_pid o).1
                   (run_daemon_loop shell_pid o).2).1
     = fs_sockets o.
Proof.
  split; [apply run_daemon_loop_fs|].
  pose proof (run_daemon_loop_fs shell_pid o) as Hfs.
  pose proof (run_daemon_loop_atexit shell_pid o) as Hhooks.
  destruct (run_daemon_loop shell_pid o) as [o1 p1]. cbn [fst snd] in *.
  unfold terminate. destruct (p_status p1); [done|].
  destruct t as [| |n]; cbn [fst].
  - unfold os__exit. cbn [fst]. by rewrite kernel_reclaim_fs.
  - destruct (p_sigterm p1); unfold os__exit; cbn [fst];
      by rewrite kernel_reclaim_fs.
  - unfold interpreter_exit. cbn [fst]. rewrite kernel_reclaim_fs.
    by destruct Hhooks as [-> | ->].
Qed.

(** X9: at most one daemon per shell.  A daemon started while another one
    holds the address of the same shell does not get it: binding fails,
    the interpreter exits with status 1 (running the cleanup callback,
    which removes nothing), and the system is exactly as it was, the
    address still held by the first daemon. *)
Theorem second_daemon_gives_up (shell_pid : Z) (o : os) :
  shell_pid <> 0 ->
  get_socket_path shell_pid ∈ abstract_bound o ->
  run_daemon_loop shell_pid o
  = (o, {| p_atexit := [get_socket_path shell_pid]; p_sigterm := Some 0;
           p_bound := None; p_ran := [get_socket_path shell_pid];
           p_status := Some 1 |})
  /\ address_exists o (get_socket_path shell_pid) = true.
Proof.
  intros Hpid Hbound. split.
  - unfold run_daemon_loop. destruct (Z.eqb_spec shell_pid 0) as [->|_]; [done|].
    rewrite os_path_exists_socket. unfold start_unix_server.
    rewrite get_socket_path_abstract. rewrite bool_decide_eq_true_2 by done.
    by destruct o.
  - rewrite address_exists_socket. by apply bool_decide_eq_true.
Qed.

(** A second daemon for the shell 1234, after a first one has started. *)
Lemma second_daemon_gives_up_witness :
  let o := (run_daemon_loop 1234 {| fs_sockets := ∅; abstract_bound := ∅ |}).1 in
  p_status (run_daemon_loop 1234 o).2 = Some 1
  /\ (run_daemon_loop 1234 o).1 = o.
Proof.
  intros o.
  destruct (second_daemon_gives_up 1234 o) as [H _].
  - lia.
  - apply (bool_decide_unpack (get_socket_path 1234 ∈ abstract_bound o)).
    vm_compute. exact I.
  - rewrite H. split; reflexivity.
Defined.

Lemma check_shell_alive_polling (polls : nat) (target : nat -> kill_target)
    (start : nat) :
  (forall i, (i < polls)%nat -> target (start + 5 * S i)%nat = OwnProcess) ->
  check_shell_alive polls target start = Polling (start + 5 * polls)%nat.
Proof.
  revert start. induction polls as [|n IH]; intros start Halive.
  - simpl. f_equal. lia.
  - rewrite check_shell_alive_step.
    replace (start + 5)%nat with (start + 5 * 1)%nat by lia.
    rewrite (Halive 0%nat) by lia. rewrite IH.
    + f_equal. lia.
    + intros i Hi. replace (start + 5 * 1 + 5 * S i)%nat
        with (start + 5 * S (S i))%nat by lia.
      apply Halive. lia.
Qed.

(** X10: the liveness task ends the daemon at the first poll that finds the
    shell gone, and not before.  If [os.kill] succeeds at the polls
    1, ..., k (at seconds 5, 10, ... after the start) and finds no process
    at poll k + 1, the task is still polling after any number of polls up
    to k, and has called [os._exit(0)] at second 5 (k + 1) after any larger
    number. *)
Theorem exit_at_first_dead_poll (target : nat -> kill_target) (start k : nat) :
  (forall i, (i < k)%nat -> target (start + 5 * S i)%nat = OwnProcess) ->
  target (start + 5 * S k)%nat = NoProcess ->
  (forall polls, (polls <= k)%nat ->
     check_shell_alive polls target start = Polling (start + 5 * polls)%nat)
  /\ (forall polls, (k < polls)%nat ->
        check_shell_alive polls target start = Exited 0 (start + 5 * S k)%nat).
Proof.
  intros Halive Hdead. split.
  - intros polls Hp. apply check_shell_alive_polling.
    intros i Hi. apply Halive. lia.
  - revert start Halive Hdead. induction k as [|k IH];
      intros start Halive Hdead [|polls] Hp; try lia.
    + rewrite check_shell_alive_step.
      replace (start + 5)%nat with (start + 5 * 1)%nat by lia.
      by rewrite Hdead.
    + rewrite check_shell_alive_step.
      replace (start + 5)%nat with (start + 5 * 1)%nat by lia.
      rewrite (Halive 0%nat) by lia.
      rewrite (IH (start + 5 * 1)%nat).
      * f_equal. lia.
      * intros i Hi. replace (start + 5 * 1 + 5 * S i)%nat
          with (start + 5 * S (S i))%nat by lia.
        apply Halive. lia.
      * replace (start + 5 * 1 + 5 * S k)%nat
          with (start + 5 * S (S k))%nat by lia.
        exact Hdead.
      * lia.
Qed.

(** The shell is there until second 12: the polls at seconds 5 and 10 pass,
    the one at second 15 ends the daemon. *)
Lemma exit_at_first_dead_poll_witness :
  let target :=
    fun t : nat => if bool_decide (t < 12)%nat then OwnProcess else NoProcess in
  check_shell_alive 2 target 0 = Polling 10
  /\ check_shell_alive 3 target 0 = Exited 0 15.
Proof.
  intros target.
  destruct (exit_at_first_dead_poll target 0 2) as [Hbefore Hafter].
  - intros i Hi. subst target. cbv beta.
    rewrite bool_decide_eq_true_2; [done|]. simpl. lia.
  - reflexivity.
  - split; [exact (Hbefore 2%nat (Nat.le_refl 2))|].
    exact (Hafter 3%nat (Nat.lt_succ_diag_r 2)).
Defined.

(** With the cleanup callback registered, which callbacks have run when
    the daemon started for shell 1234 has ended. *)
Lemma atexit_callbacks_run_witness :
  let o := {| fs_sockets := ∅; abstract_bound := ∅ |} in
  p_ran (terminate (InterpreterExit 0) (run_daemon_loop 1234 o).1
           (run_daemon_loop 1234 o).2).2 = [get_socket_path 1234]
  /\ p_ran (terminate LivenessFailure (run_daemon_loop 1234 o).1
              (run_daemon_loop 1234 o).2).2 = [].
Proof.
  intros o. split.
  - apply (atexit_callbacks_run 1234 o (InterpreterExit 0));
      [lia|apply not_elem_of_empty].
  - apply (atexit_callbacks_run 1234 o LivenessFailure);
      [lia|apply not_elem_of_empty].
Defined.

(** * Further properties of the client *)

Lemma resp_context_truthy (ctx : json) : truthy (resp_context ctx) = true.
Proof.
  apply truthy_obj_lookup with "type" (JStr "context"). by simplify_map_eq.
Qed.

Lemma resp_context_data (ctx dflt : json) :
  dict_get (resp_context ctx) "data" dflt = Ok ctx.
Proof. apply dict_get_present. by simplify_map_eq. Qed.

(** With a daemon listening the first attempt connects. *)
Lemma connect_or_start_running (shell_pid : Z) (path : string) (w : world)
    (st : State) :
  listening w !! path = Some st ->
  connect_or_start shell_pid path w = (Done true, linked path w).
Proof.
  intros Hl. unfold connect_or_start, try_except, bind, open_unix_connection.
  by rewrite Hl.
Qed.

(** One round trip of the client with the daemon it is connected to, when
    the lines of the request and of the response are within the limit. *)
Lemma client_exchange {B} (e : environ) (r : request)
    (k : option json -> Client B) (w : world) (a : string) (st : State) :
  link w = Some a ->
  peer_open w = true ->
  inbox w = [] ->
  listening w !! a = Some st ->
  line_fits (float_repr e) (encode r) = true ->
  line_fits (float_repr e) (respond (context st) r).1 = true ->
  (client_send e (encode r) ;; msg <- client_recv e ;; k msg) w
  = k (Some (respond (context st) r).1) (exchanged a st r w).
Proof.
  intros Hlink Hopen Hin Hl Hreq Hresp. unfold bind at 1. unfold client_send.
  rewrite Hlink, Hopen, Hl, Hin. rewrite received_fits by done.
  rewrite loop_body_request by done.
  unfold bind, client_recv. cbn [inbox w_sent writer_push writer_new app].
  rewrite received_fits by done. cbn. done.
Qed.

(** The response is written, but its line is longer than the limit of the
    client's stream reader: [recv_json] raises [ValueError]. *)
Lemma client_exchange_unread {B} (e : environ) (r : request)
    (k : option json -> Client B) (w : world) (a : string) (st : State) :
  link w = Some a ->
  peer_open w = true ->
  inbox w = [] ->
  listening w !! a = Some st ->
  line_fits (float_repr e) (encode r) = true ->
  line_fits (float_repr e) (respond (context st) r).1 = false ->
  (client_send e (encode r) ;; msg <- client_recv e ;; k msg) w
  = (Fail ValueError, exchanged a st r w).
Proof.
  intros Hlink Hopen Hin Hl Hreq Hresp. unfold bind at 1. unfold client_send.
  rewrite Hlink, Hopen, Hl, Hin. rewrite received_fits by done.
  rewrite loop_body_request by done.
  unfold bind, client_recv. cbn [inbox w_sent writer_push writer_new app].
  rewrite received_long by done. cbn. done.
Qed.


(** The [get] of the client, from a daemon whose context is a string. *)
Lemma client_get {B} (e : environ) (k : option json -> Client B) (w : world)
    (a : string) (st : State) (c : string) :
  link w = Some a ->
  peer_open w = true ->
  inbox w = [] ->
  listening w !! a = Some st ->
  context st = JStr c ->
  (client_send e req_get ;; msg <- client_recv e ;; k msg) w
  = if bool_decide (31 + len (escape c) <= DEFAULT_LIMIT)
    then k (Some (resp_context (JStr c))) (exchanged a st ReqGet w)
    else (Fail ValueError, exchanged a st ReqGet w).
Proof.
  intros Hlink Hopen Hin Hl Hc.
  pose proof (line_fits_resp_context (float_repr e) c) as Hfits.
  pose proof (line_fits_req_get (float_repr e)) as Hreq.
  change req_get with (encode ReqGet) in *.
  destruct (bool_decide (31 + len (escape c) <= DEFAULT_LIMIT)).
  - assert (line_fits (float_repr e) (respond (context st) ReqGet).1 = true)
      as Hresp by (cbn [respond fst]; by rewrite Hc).
    rewrite (client_exchange e ReqGet k w a st Hlink Hopen Hin Hl Hreq Hresp).
    cbn [respond fst]. by rewrite Hc.
  - assert (line_fits (float_repr e) (respond (context st) ReqGet).1 = false)
      as Hresp by (cbn [respond fst]; by rewrite Hc).
    exact (client_exchange_unread e ReqGet k w a st Hlink Hopen Hin Hl Hreq Hresp).
Qed.

Lemma linked_ready (path : string) (w : world) (st : State) :
  listening w !! path = Some st ->
  link (linked path w) = Some path /\ peer_open (linked path w) = true
  /\ inbox (linked path w) = [] /\ listening (linked path w) !! path = Some st.
Proof. done. Qed.


(** X11: with [--clear] and a daemon running, the invocation makes exactly
    one round trip: it sends [clear] and nothing else, whatever prompt or
    piped input came with it; the daemon's context is empty afterwards;
    nothing is printed, nothing is generated, no daemon is launched, and
    the exit status is 0. *)
Theorem clear_invocation (e : environ) (a : Args) (w : world) (st : State) :
  help a = false ->
  isolated a = false ->
  clear a = true ->
  listening w !! get_socket_path (getppid e) = Some st ->
  let '(status, w') := main e a w in
  status = Some 0
  /\ listening w'
     = <[get_socket_path (getppid e) := {| pid := pid st; context := JStr "" |}]>
         (listening w)
  /\ requests w' = requests w ++ [req_clear]
  /\ generations w' = generations w
  /\ stdout w' = stdout w /\ stderr w' = stderr w
  /\ spawned w' = spawned w /\ sleeps w' = sleeps w.
Proof.
  intros Hhelp Hiso Hclear Hl. unfold main, run_client.
  rewrite Hhelp, Hiso, Hclear. cbn [negb]. rewrite andb_false_r.
  unfold bind at 1. rewrite (connect_or_start_running _ _ _ st Hl).
  unfold session. rewrite Hclear. cbn [orb].
  unfold bind at 1. change req_clear with (encode ReqClear).
  destruct (linked_ready _ w st Hl) as (H1 & H2 & H3 & H4).
  rewrite (client_exchange e ReqClear _ _ _ st H1 H2 H3 H4
             (line_fits_req_clear _) (line_fits_resp_ok _)).
  cbn. done.
Qed.

Lemma clear_invocation_witness :
  let e := {| read_stdin := Some "piped"; GEMINI_API_KEY := None;
              getppid := 4242; call_gemini := fun _ _ _ => "";
              py_str := fun _ => "" |} in
  let a := mkArgs false false false false true true false false ["hello"] in
  let w := mkWorld {[ get_socket_path 4242 := {| pid := 4242; context := JStr "old" |} ]}
             None None [] 0 None false [] [] [] "" "" in
  (main e a w).1 = Some 0
  /\ requests (main e a w).2 = [req_clear]
  /\ stdout (main e a w).2 = "".
Proof.
  intros e a w.
  pose proof (clear_invocation e a w {| pid := 4242; context := JStr "old" |}
                eq_refl eq_refl eq_refl) as H.
  destruct (main e a w) as [status w'].
  destruct H as (Hs & _ & Hr & _ & Ho & _).
  - vm_compute. reflexivity.
  - split; [exact Hs|]. split; [exact Hr|exact Ho].
Defined.

(** X12: with [--print] (and without [--clear]) and a daemon running whose
    context is a string, the invocation makes exactly one round trip: it
    sends [get] and changes nothing: the context stays, no prompt is looked
    at, nothing is generated.  When the line of the reply (31 characters
    and the context as [json.dumps] escapes it) is within the limit of the
    client's stream reader, it prints the context stripped of surrounding
    white space, or [(empty)] when nothing is left, and ends with status 0;
    when the line is longer, reading it fails: nothing is printed and the
    exit status is 1. *)
Theorem print_invocation (e : environ) (a : Args) (w : world) (st : State)
    (c : string) :
  help a = false ->
  isolated a = false ->
  clear a = false ->
  print_context a = true ->
  listening w !! get_socket_path (getppid e) = Some st ->
  context st = JStr c ->
  let '(status, w') := main e a w in
  listening w' = listening w
  /\ requests w' = requests w ++ [req_get]
  /\ generations w' = generations w
  /\ stderr w' = stderr w
  /\ spawned w' = spawned w /\ sleeps w' = sleeps w
  /\ if bool_decide (31 + len (escape c) <= DEFAULT_LIMIT) then
       status = Some 0
       /\ stdout w'
          = stdout w +:+ (if nonempty (strip c) then strip c else "(empty)")
              +:+ NL
     else status = Some 1 /\ stdout w' = stdout w.
Proof.
  intros Hhelp Hiso Hclear Hprint Hl Hc. unfold main, run_client.
  rewrite Hhelp, Hiso, Hclear, Hprint. cbn [negb]. rewrite andb_false_r.
  cbn [andb].
  unfold bind at 1. rewrite (connect_or_start_running _ _ _ st Hl).
  unfold session. rewrite Hclear, Hprint. cbn [orb].
  unfold bind at 1.
  destruct (linked_ready _ w st Hl) as (H1 & H2 & H3 & H4).
  assert (<[get_socket_path (getppid e) := st]> (listening w) = listening w)
    as Hsame by (by apply insert_id).
  assert ({| pid := pid st; context := context st |} = st) as Hst
    by (by destruct st).
  rewrite (client_get e _ _ _ st c H1 H2 H3 H4 Hc).
  destruct (bool_decide (31 + len (escape c) <= DEFAULT_LIMIT)).
  - rewrite resp_context_truthy.
    unfold bind at 1. rewrite resp_context_data. cbn. by rewrite Hst, Hsame.
  - cbn. by rewrite Hst, Hsame.
Qed.

Lemma print_invocation_witness :
  let e := {| read_stdin := None; GEMINI_API_KEY := None;
              getppid := 4242; call_gemini := fun _ _ _ => "";
              py_str := fun _ => "" |} in
  let a := mkArgs false false false false false true false false [] in
  let w := mkWorld {[ get_socket_path 4242 := {| pid := 4242; context := JStr " kept " |} ]}
             None None [] 0 None false [] [] [] "" "" in
  (main e a w).1 = Some 0
  /\ stdout (main e a w).2 = "kept" +:+ NL.
Proof.
  intros e a w.
  pose proof (print_invocation e a w {| pid := 4242; context := JStr " kept " |}
                " kept " eq_refl eq_refl eq_refl eq_refl) as H.
  destruct (main e a w) as [status w'].
  destruct H as (_ & _ & _ & _ & _ & _ & Hs & Ho).
  - vm_compute. reflexivity.
  - reflexivity.
  - split; [exact Hs|exact Ho].
Defined.

(** A context of 65506 letters was stored by a [set] whose line was within
    the limit; the line of the reply to [get] is two characters longer and
    is not: [--print] fails. *)
Example print_of_long_context :
  let e := {| read_stdin := None; GEMINI_API_KEY := None;
              getppid := 4242; call_gemini := fun _ _ _ => "";
              py_str := fun _ => "" |} in
  let a := mkArgs false false false false false true false false [] in
  let w := mkWorld {[ get_socket_path 4242 :=
                        {| pid := 4242; context := JStr (text_of 65506 "a") |} ]}
             None None [] 0 None false [] [] [] "" "" in
  line_fits (float_repr e) (req_set (JStr (text_of 65506 "a"))) = true
  /\ (main e a w).1 = Some 1
  /\ stdout (main e a w).2 = "".
Proof. intros e a w. split; [|split]; vm_compute; reflexivity. Qed.

(** What the client takes as context after the [get] of a normal call. *)
Lemma piped_context (c : string) (stdin_data : option string) :
  (if given stdin_data then
     c0 <- (if truthy (JStr c) then lift (iadd_str (JStr c) (NL +:+ NL))
            else ret (JStr c)) ;;
     lift (iadd_str c0 ("[Context]" +:+ NL +:+ strip (default "" stdin_data)))
   else ret (JStr c))
  = ret (JStr (with_piped_input c stdin_data)).
Proof.
  unfold with_piped_input. destruct (given stdin_data); [|done].
  by destruct c.
Qed.






(** X15: a prompt without [GEMINI_API_KEY] (unset or empty).  With a daemon
    running whose context is a string, the invocation first reads the
    context.  When the line of the reply is within the limit of the
    client's stream reader, it reports the missing key on standard error
    and stops with status 0; when the line is longer, reading it fails
    and the exit status is 1, with nothing reported.  Either way no
    generation call is made and nothing is stored, so piped input that
    came with the prompt is not kept. *)
Theorem prompt_without_key (e : environ) (a : Args) (w : world) (st : State)
    (c : string) :
  help a = false ->
  isolated a = false ->
  clear a = false ->
  print_context a = false ->
  nonempty (strip (join " " (prompt a))) = true ->
  given (GEMINI_API_KEY e) = false ->
  listening w !! get_socket_path (getppid e) = Some st ->
  context st = JStr c ->
  let '(status, w') := main e a w in
  listening w' = listening w
  /\ requests w' = requests w ++ [req_get]
  /\ generations w' = generations w
  /\ stdout w' = stdout w
  /\ if bool_decide (31 + len (escape c) <= DEFAULT_LIMIT) then
       status = Some 0
       /\ stderr w' = stderr w +:+ "[Error] Missing GEMINI_API_KEY" +:+ NL
     else status = Some 1 /\ stderr w' = stderr w.
Proof.
  intros Hhelp Hiso Hclear Hprint Hprompt Hkey Hl Hc.
  unfold main, run_client.
  rewrite Hhelp, Hiso, Hclear, Hprint, Hprompt.
  cbn [negb]. rewrite andb_false_r. cbn [andb].
  unfold bind at 1. rewrite (connect_or_start_running _ _ _ st Hl).
  unfold session. rewrite Hclear, Hprint. cbn [orb].
  unfold bind at 1. unfold ret at 1.
  destruct (linked_ready _ w st Hl) as (H1 & H2 & H3 & H4).
  assert (<[get_socket_path (getppid e) := st]> (listening w) = listening w)
    as Hsame by (by apply insert_id).
  assert ({| pid := pid st; context := context st |} = st) as Hst
    by (by destruct st).
  rewrite (client_get e _ _ _ st c H1 H2 H3 H4 Hc).
  destruct (bool_decide (31 + len (escape c) <= DEFAULT_LIMIT)).
  - unfold context_of.
    rewrite resp_context_truthy, resp_context_data.
    unfold bind at 1. cbn [lift ret].
    rewrite piped_context. unfold bind at 1. cbn [ret].
    rewrite Hprompt, Hkey. cbn. by rewrite Hst, Hsame.
  - cbn. by rewrite Hst, Hsame.
Qed.

Lemma prompt_without_key_witness :
  let e := {| read_stdin := Some "piped"; GEMINI_API_KEY := Some "";
              getppid := 4242; call_gemini := fun _ _ _ => "never called";
              py_str := fun _ => "" |} in
  let a := mkArgs false false false false false false false false ["why"] in
  let w := mkWorld {[ get_socket_path 4242 := {| pid := 4242; context := JStr "old" |} ]}
             None None [] 0 None false [] [] [] "" "" in
  (main e a w).1 = Some 0
  /\ listening (main e a w).2
     = {[ get_socket_path 4242 := {| pid := 4242; context := JStr "old" |} ]}
  /\ generations (main e a w).2 = [].
Proof.
  intros e a w.
  pose proof (prompt_without_key e a w {| pid := 4242; context := JStr "old" |}
                "old" eq_refl eq_refl eq_refl eq_refl eq_refl eq_refl) as H.
  destruct (main e a w) as [status w'].
  destruct H as (Hl & _ & Hg & _ & Hs & _).
  - vm_compute. reflexivity.
  - reflexivity.
  - split; [exact Hs|]. split; [exact Hl|exact Hg].
Defined.

(** X16: the daemon stores whatever value a [set] carries, and the client
    expects a string.  With [--print] and a daemon whose context is a
    value that is not a string (a number, a list, [null], ...), the
    invocation sends its [get], then fails on [strip]: nothing is printed
    and the process ends with a traceback, exit status 1. *)
Theorem print_of_non_string_context (e : environ) (a : Args) (w : world)
    (st : State) :
  help a = false ->
  isolated a = false ->
  clear a = false ->
  print_context a = true ->
  listening w !! get_socket_path (getppid e) = Some st ->
  is_str (context st) = false ->
  let '(status, w') := main e a w in
  status = Some 1
  /\ requests w' = requests w ++ [req_get]
  /\ stdout w' = stdout w.
Proof.
  intros Hhelp Hiso Hclear Hprint Hl Hc. unfold main, run_client.
  rewrite Hhelp, Hiso, Hclear, Hprint. cbn [negb]. rewrite andb_false_r.
  cbn [andb].
  unfold bind at 1. rewrite (connect_or_start_running _ _ _ st Hl).
  unfold session. rewrite Hclear, Hprint. cbn [orb].
  unfold bind at 1. change req_get with (encode ReqGet).
  destruct (linked_ready _ w st Hl) as (H1 & H2 & H3 & H4).
  destruct (line_fits (float_repr e) (resp_context (context st))) eqn:Hfit.
  - rewrite (client_exchange e ReqGet _ _ _ st H1 H2 H3 H4
               (line_fits_req_get _) Hfit).
    cbn [respond fst snd]. rewrite resp_context_truthy.
    unfold bind at 1. rewrite resp_context_data. clear Hfit.
    destruct (context st); try discriminate Hc; cbn; done.
  - rewrite (client_exchange_unread e ReqGet _ _ _ st H1 H2 H3 H4
               (line_fits_req_get _) Hfit).
    clear Hfit. done.
Qed.

Lemma print_of_non_string_context_witness :
  let e := {| read_stdin := None; GEMINI_API_KEY := None;
              getppid := 4242; call_gemini := fun _ _ _ => "";
              py_str := fun _ => "" |} in
  let a := mkArgs false false false false false true false false [] in
  let w := mkWorld {[ get_socket_path 4242 := {| pid := 4242; context := JInt 5 |} ]}
             None None [] 0 None false [] [] [] "" "" in
  (main e a w).1 = Some 1.
Proof.
  intros e a w.
  pose proof (print_of_non_string_context e a w
                {| pid := 4242; context := JInt 5 |}
                eq_refl eq_refl eq_refl eq_refl) as H.
  destruct (main e a w) as [status w'].
  destruct H as (Hs & _).
  - vm_compute. reflexivity.
  - reflexivity.
  - exact Hs.
Defined.

Lemma same_daemons_refl (w : world) : same_daemons w w.
Proof. by repeat split. Qed.

Lemma print_all_same_daemons (l : list string) (w : world) :
  (print_all l w).1 = Done tt /\ same_daemons w (print_all l w).2.
Proof.
  revert w. induction l as [|s l IH]; intros w; [by repeat split|].
  cbn [print_all]. unfold bind. cbn [print].
  destruct (IH (mkWorld (listening w) (startup w) (booting w) (spawned w)
                  (sleeps w) (link w) (peer_open w) (inbox w) (requests w)
                  (generations w) (stdout w +:+ s +:+ NL) (stderr w)))
    as [H1 H2].
  split; [exact H1|]. exact H2.
Qed.

Lemma isolated_mode_same_daemons (e : environ) (a : Args) (user_prompt : string)
    (w : world) :
  (isolated_mode e a user_prompt w).1 = Done tt
  /\ same_daemons w (isolated_mode e a user_prompt w).2.
Proof.
  unfold isolated_mode.
  destruct (negb (given (read_stdin e)) && negb (nonempty user_prompt));
    [by repeat split|].
  destruct (negb (given (GEMINI_API_KEY e))); [by repeat split|].
  unfold bind, generate, print_response, bind, print_raw, print.
  destruct (ends_with_NL _); by repeat split.
Qed.

(** X17: [--help] and [--isolated] never reach for a daemon.  Whatever else
    is on the command line, in the environment or on standard input, the
    invocation ends with status 0 and has not connected, launched, slept or
    sent anything: the daemons and their contexts are as they were. *)
Theorem help_and_isolated_leave_daemons (e : environ) (a : Args) (w : world) :
  help a = true \/ isolated a = true ->
  (main e a w).1 = Some 0 /\ same_daemons w (main e a w).2.
Proof.
  intros Hmode. unfold main, run_client.
  destruct (help a) eqn:Hhelp.
  - destruct (print_all_same_daemons usage w) as [H1 H2].
    destruct (print_all usage w) as [r w']. cbn [fst snd] in *. by subst.
  - destruct Hmode as [Hh|Hiso]; [discriminate Hh|]. rewrite Hiso.
    destruct (isolated_mode_same_daemons e a (strip (join " " (prompt a))) w)
      as [H1 H2].
    destruct (isolated_mode e a _ w) as [r w']. cbn [fst snd] in *. by subst.
Qed.

Lemma help_and_isolated_leave_daemons_witness :
  let e := {| read_stdin := Some "piped"; GEMINI_API_KEY := Some "key";
              getppid := 4242; call_gemini := fun _ _ _ => "answer";
              py_str := fun _ => "" |} in
  let a := mkArgs false false false false true true true false ["why"] in
  let w := mkWorld {[ get_socket_path 4242 := {| pid := 4242; context := JStr "old" |} ]}
             None None [] 0 None false [] [] [] "" "" in
  (main e a w).1 = Some 0
  /\ listening (main e a w).2
     = {[ get_socket_path 4242 := {| pid := 4242; context := JStr "old" |} ]}
  /\ requests (main e a w).2 = [].
Proof.
  intros e a w.
  destruct (help_and_isolated_leave_daemons e a w) as (Hs & Hl & _ & _ & _ & _ & Hr).
  - right. reflexivity.
  - split; [exact Hs|]. split; [exact Hl|exact Hr].
Defined.

(** The launched daemon listens after [k] further sleeps: the attempt
    after sleep [k + 1] connects. *)
Lemma retry_connect_succeeds (k attempts : nat) (path : string) (st : State)
    (w : world) :
  (k < attempts)%nat ->
  listening w !! path = None ->
  booting w = Some (path, st, k) ->
  retry_connect attempts path w
  = (Done true,
     mkWorld (<[path := st]> (listening w)) (startup w) None (spawned w)
       (sleeps w + S k) (Some path) true [] (requests w) (generations w)
       (stdout w) (stderr w)).
Proof.
  revert attempts w. induction k as [|k IH]; intros [|n] w Hk Hnone Hboot;
    try lia; cbn [retry_connect]; unfold bind at 1; unfold sleep_100ms;
    rewrite Hboot.
  - rewrite Hnone. unfold bind at 1.
    unfold try_except, bind, open_unix_connection.
    cbn [listening]. rewrite lookup_insert_eq. cbn.
    do 2 f_equal. lia.
  - unfold bind at 1. unfold try_except, bind at 1, open_unix_connection.
    cbn [listening]. rewrite Hnone. cbn [ret].
    rewrite IH; [|lia|done|done]. cbn. do 2 f_equal. lia.
Qed.

(** X18: spawn on demand.  When no daemon listens at the shell's address
    and the one the client launches starts listening within the retry
    budget (after [k + 1 <= 20] sleeps), the client launches exactly one
    daemon, sleeps [k + 1] times and is connected to it; the daemon starts
    with an empty context. *)
Theorem spawn_within_budget (shell_pid : Z) (k : nat) (w : world) :
  listening w !! get_socket_path shell_pid = None ->
  startup w = Some k ->
  (k < 20)%nat ->
  connect_or_start shell_pid (get_socket_path shell_pid) w
  = (Done true,
     mkWorld (<[get_socket_path shell_pid := State_new shell_pid]> (listening w))
       (startup w) None (spawned w ++ [shell_pid]) (sleeps w + S k)
       (Some (get_socket_path shell_pid)) true [] (requests w) (generations w)
       (stdout w) (stderr w)).
Proof.
  intros Hnone Hstart Hk.
  unfold connect_or_start, try_except.
  unfold bind at 1. unfold open_unix_connection at 1. rewrite Hnone.
  unfold bind at 1. unfold run_daemon. rewrite Hstart.
  by rewrite (retry_connect_succeeds k 20 _ (State_new shell_pid)).
Qed.

Lemma spawn_within_budget_witness :
  let w := mkWorld ∅ (Some 19%nat) None [] 0 None false [] [] [] "" "" in
  (connect_or_start 4242 (get_socket_path 4242) w).1 = Done true
  /\ sleeps (connect_or_start 4242 (get_socket_path 4242) w).2 = 20%nat
  /\ spawned (connect_or_start 4242 (get_socket_path 4242) w).2 = [4242].
Proof.
  intros w.
  rewrite (spawn_within_budget 4242 19 w); [|reflexivity|reflexivity|lia].
  repeat split.
Defined.

Lemma string_app_nil_r (s : string) : s +:+ "" = s.
Proof.
  induction s as [|c s IH]; [done|].
  change (String c s +:+ "") with (String c (s +:+ "")). by rewrite IH.
Qed.

Lemma string_app_assoc (s t u : string) : (s +:+ t) +:+ u = s +:+ t +:+ u.
Proof.
  induction s as [|c s IH]; [done|].
  change ((String c s +:+ t) +:+ u) with (String c ((s +:+ t) +:+ u)).
  by rewrite IH.
Qed.

Lemma ends_with_NL_app (s t : string) :
  nonempty t = true -> ends_with_NL (s +:+ t) = ends_with_NL t.
Proof.
  intros Ht. induction s as [|c s IH]; [done|].
  change (String c s +:+ t) with (String c (s +:+ t)). rewrite <- IH.
  destruct (s +:+ t) eqn:Hst; [|reflexivity].
  destruct s; [|discriminate Hst]. change (t = "") in Hst.
  rewrite Hst in Ht. discriminate Ht.
Qed.

(** X19: whatever the generation call returns, what is printed for it ends
    with a newline: the response as it is when it ends with one, the
    response and a newline otherwise. *)
Theorem response_ends_with_newline (response : string) (w : world) :
  stdout (print_response response w).2
  = stdout w +:+ response
      +:+ (if ends_with_NL response then "" else NL)
  /\ ends_with_NL (stdout (print_response response w).2) = true.
Proof.
  unfold print_response, bind, print_raw, print, ret.
  destruct (ends_with_NL response) eqn:Hnl; cbn [fst snd stdout]; split.
  - by rewrite string_app_nil_r.
  - rewrite ends_with_NL_app; [done|]. by destruct response.
  - by rewrite string_app_assoc.
  - by rewrite ends_with_NL_app.
Qed.

(** * Starting the daemon *)

Lemma rev_app_rev_app (s t u : string) :
  String.rev_app (String.rev_app s t) u = String.rev_app t (s +:+ u).
Proof.
  revert t u. induction s as [|c s IH]; intros t u; [done|].
  cbn [String.rev_app]. by rewrite IH.
Qed.

Lemma string_rev_involutive (s : string) : String.rev (String.rev s) = s.
Proof.
  unfold String.rev. rewrite rev_app_rev_app. cbn [String.rev_app].
  apply string_app_nil_r.
Qed.

Lemma string_forall_rev_app (p : ascii -> bool) (s t : string) :
  string_forall p (String.rev_app s t) = string_forall p s && string_forall p t.
Proof.
  revert t. induction s as [|c s IH]; intros t; [done|].
  cbn [String.rev_app string_forall]. rewrite IH. cbn [string_forall].
  by destruct (p c), (string_forall p s), (string_forall p t).
Qed.

Lemma lstrip_no_space (s : string) :
  string_forall (fun c => negb (is_space c)) s = true -> lstrip s = s.
Proof.
  destruct s as [|c s]; [done|]. cbn [string_forall lstrip].
  intros [Hc _]%andb_true_iff. apply negb_true_iff in Hc. by rewrite Hc.
Qed.

(** [strip] leaves a string without white space as it is. *)
Lemma strip_no_space (s : string) :
  string_forall (fun c => negb (is_space c)) s = true -> strip s = s.
Proof.
  intros Hs. unfold strip, rstrip. rewrite (lstrip_no_space s Hs).
  rewrite lstrip_no_space; [apply string_rev_involutive|].
  unfold String.rev. rewrite string_forall_rev_app, Hs. done.
Qed.

Lemma digit_not_space (c : ascii) :
  is_digit c = true -> negb (is_space c) = true.
Proof.
  destruct c as [[] [] [] [] [] [] [] []]; vm_compute; congruence.
Qed.

Lemma digit_not_sign (c : ascii) :
  is_digit c = true -> c <> "-"%char /\ c <> "+"%char.
Proof. intros Hc. split; intros ->; discriminate Hc. Qed.

Lemma string_forall_impl (p q : ascii -> bool) (s : string) :
  (forall c, p c = true -> q c = true) ->
  string_forall p s = true -> string_forall q s = true.
Proof.
  intros Hpq. induction s as [|c s IH]; [done|]. cbn [string_forall].
  intros [Hc Hs]%andb_true_iff. by rewrite (Hpq c Hc), IH.
Qed.

Lemma digit_of_pretty_N_char (n : N) :
  (n < 10)%N -> digit_of (pretty_N_char n) = Some (Z.of_N n).
Proof.
  intros Hn. destruct n as [|p]; [done|].
  repeat (destruct p as [p|p|]; try done; try lia).
Qed.

(** The decimal text of a number consists of digits, and reading the
    digits gives the number back. *)
Lemma pretty_N_go_spec (x : N) :
  forall s,
    (string_forall is_digit s = true ->
     string_forall is_digit (pretty_N_go x s) = true)
    /\ parse_digits None (pretty_N_go x s)
       = parse_digits (if decide (x = 0%N) then None else Some (Z.of_N x)) s.
Proof.
  induction (N.lt_wf_0 x) as [x _ IH]. intros s.
  destruct (decide (x = 0%N)) as [->|Hx]; [by rewrite pretty_N_go_0|].
  assert (0 < x)%N as Hpos by lia.
  rewrite pretty_N_go_step by done.
  assert (x `mod` 10 < 10)%N as Hmod by (apply N.mod_upper_bound; lia).
  pose proof (digit_of_pretty_N_char _ Hmod) as Hdigit.
  destruct (IH (x `div` 10)%N (N.div_lt x 10 Hpos eq_refl)
              (String (pretty_N_char (x `mod` 10)) s)) as [IH1 IH2].
  split.
  - intros Hs. apply IH1. cbn [string_forall]. unfold is_digit at 1.
    by rewrite Hdigit.
  - rewrite IH2. cbn [parse_digits]. rewrite Hdigit. f_equal. f_equal.
    assert (Z.of_N x = 10 * Z.of_N (x `div` 10) + Z.of_N (x `mod` 10)) as Hdm.
    { rewrite (N.div_mod x 10) at 1 by done. lia. }
    destruct (decide (x `div` 10 = 0)%N) as [H0|H0]; cbn [default];
      rewrite Hdm, ?H0; reflexivity.
Qed.

Lemma str_int_no_space (n : Z) :
  string_forall (fun c => negb (is_space c)) (str_int n) = true.
Proof.
  assert (forall p, string_forall (fun c => negb (is_space c))
                      (pretty (N.pos p)) = true) as Hpos.
  { intros p. apply string_forall_impl with is_digit; [apply digit_not_space|].
    unfold pretty, pretty_N. cbn [decide]. rewrite decide_False by done.
    by apply pretty_N_go_spec. }
  destruct n as [|p|p]; [done|apply Hpos|].
  apply (Hpos p).
Qed.

Lemma parse_digits_pretty (p : positive) :
  parse_digits None (pretty (N.pos p)) = Some (Z.pos p)
  /\ exists c s, pretty (N.pos p) = String c s /\ is_digit c = true.
Proof.
  unfold pretty, pretty_N. rewrite decide_False by done.
  destruct (pretty_N_go_spec (N.pos p) "") as [Hdigits Hparse].
  split.
  - rewrite Hparse. by rewrite decide_False.
  - specialize (Hdigits eq_refl).
    destruct (pretty_N_go (N.pos p) "") as [|c s] eqn:Hgo.
    + rewrite decide_False in Hparse by done. discriminate Hparse.
    + exists c, s. split; [done|]. cbn [string_forall] in Hdigits.
      by apply andb_true_iff in Hdigits as [Hc _].
Qed.

Lemma skip_int_space_none (s : string) :
  string_forall (fun c => negb (is_int_space c)) s = true ->
  skip_int_space s = s.
Proof.
  destruct s as [|c s]; [done|]. cbn [string_forall skip_int_space].
  intros [Hc _]%andb_true_iff. apply negb_true_iff in Hc. by rewrite Hc.
Qed.

Lemma int_space_is_space (c : ascii) :
  negb (is_space c) = true -> negb (is_int_space c) = true.
Proof. destruct c as [[] [] [] [] [] [] [] []]; vm_compute; congruence. Qed.

(** [int] reads back what [str] has written. *)
Lemma py_int_str_int (n : Z) : py_int (str_int n) = Ok n.
Proof.
  unfold py_int.
  assert (string_forall (fun c => negb (is_int_space c)) (str_int n) = true)
    as Hn.
  { eapply string_forall_impl; [apply int_space_is_space|].
    apply str_int_no_space. }
  rewrite (skip_int_space_none _ Hn).
  rewrite skip_int_space_none
    by (unfold String.rev; by rewrite string_forall_rev_app, Hn).
  rewrite string_rev_involutive.
  destruct n as [|p|p]; [done| |].
  - destruct (parse_digits_pretty p) as [Hparse (c & s & Hs & Hc)].
    unfold str_int. change (pretty (Z.pos p)) with (pretty (N.pos p)).
    rewrite Hs. destruct (digit_not_sign c Hc) as [Hminus Hplus].
    rewrite (bool_decide_eq_false_2 (c = "-"%char) Hminus).
    rewrite (bool_decide_eq_false_2 (c = "+"%char) Hplus).
    rewrite <- Hs. by rewrite Hparse.
  - destruct (parse_digits_pretty p) as [Hparse _].
    unfold str_int.
    change (pretty (Z.neg p)) with (String "-"%char (pretty (N.pos p))).
    cbv iota. rewrite (bool_decide_eq_true_2 ("-"%char = "-"%char) eq_refl).
    by rewrite Hparse.
Qed.

(** [int] on texts [str] does not write: white space around the number
    is skipped, an information separator is not; a sign and single
    underscores between digits are accepted. *)
Example py_int_samples :
  py_int (" 42 " +:+ NL) = Ok 42
  /\ py_int (String (ascii_of_nat 28) "42") = Raise ValueError
  /\ py_int "-7" = Ok (-7)
  /\ py_int "+1_000" = Ok 1000
  /\ py_int "4 2" = Raise ValueError
  /\ py_int "" = Raise ValueError.
Proof. repeat split; vm_compute; reflexivity. Qed.

(** X20: the process id reaches the daemon unchanged.  Whatever the
    client's environment holds, the process started by [run_daemon] for a
    shell finds the daemon marker, reads back exactly that shell's process
    id from [LLM_SHELL_PID], and so runs the daemon for it. *)
Theorem spawned_daemon_reads_pid (environ : gmap string string)
    (shell_pid : Z) :
  main_mode (run_daemon_env environ shell_pid) = DaemonMode (Ok shell_pid).
Proof.
  unfold main_mode, run_daemon_env.
  rewrite lookup_insert_ne by done. rewrite !lookup_insert_eq.
  rewrite bool_decide_eq_true_2 by done.
  change (default "0" (Some (str_int shell_pid))) with (str_int shell_pid).
  by rewrite py_int_str_int.
Qed.

(** X21: a process that finds the daemon marker but no [LLM_SHELL_PID]
    takes the process id to be 0, and the daemon for process id 0 exits at
    once with status 1: nothing is registered, nothing is bound, and the
    system is left as it was. *)
Theorem daemon_without_pid_exits (environ : gmap string string) (o : os) :
  environ !! DAEMON_ENV = Some "1" ->
  environ !! "LLM_SHELL_PID" = None ->
  main_mode environ = DaemonMode (Ok 0)
  /\ run_daemon_loop 0 o
     = (o, {| p_atexit := []; p_sigterm := None; p_bound := None;
              p_ran := []; p_status := Some 1 |}).
Proof.
  intros Hmarker Hpid. split.
  - unfold main_mode. rewrite Hmarker, Hpid.
    by rewrite bool_decide_eq_true_2.
  - done.
Qed.

Lemma daemon_without_pid_exits_witness :
  main_mode {[ DAEMON_ENV := "1" ]} = DaemonMode (Ok 0)
  /\ p_status (run_daemon_loop 0 {| fs_sockets := ∅; abstract_bound := ∅ |}).2
     = Some 1.
Proof.
  destruct (daemon_without_pid_exits {[ DAEMON_ENV := "1" ]}
              {| fs_sockets := ∅; abstract_bound := ∅ |}) as [Hmode Hrun].
  - vm_compute. reflexivity.
  - vm_compute. reflexivity.
  - split; [exact Hmode|]. by rewrite Hrun.
Defined.

(** * The generation call *)

Lemma texts_of_parts (parts : list json) (texts : list string) (index : nat) :
  Forall2 (fun p t => part_text p = Some t) parts texts ->
  exists ts,
    texts_of parts = inr ts /\ join_texts index ts = inr (concat_strings texts).
Proof.
  intros H. revert index. induction H as [|p t parts texts Hp _ IH]; intros index.
  - by exists [].
  - destruct (IH (S index)) as (ts & Hts & Hjoin).
    destruct p as [| | | | | |m]; try discriminate Hp. cbn in Hp.
    cbn [texts_of get_field]. rewrite Hts.
    destruct (m !! "text") as [[| | | |t'| |]|] eqn:Hm; try discriminate Hp;
      injection Hp as <-; eexists; (split; [reflexivity|]);
      cbn [default join_texts]; by rewrite Hjoin.
Qed.

(** X22: the text of a response.  When the decoded response is an object
    whose [candidates] is a list, the first candidate an object whose
    [content] is an object with a list of [parts], and every part an object
    whose [text], if it has one, is a string, then [call_gemini] returns
    the texts of these parts, in order, joined without separator; a part
    without text counts as empty, and further candidates and other fields
    play no role. *)
Theorem call_gemini_joins_parts (dumps : json -> string)
    (describe : failure -> string) (m cand content : gmap string json)
    (rest parts : list json) (texts : list string) :
  m !! "candidates" = Some (JArr (JObj cand :: rest)) ->
  cand !! "content" = Some (JObj content) ->
  content !! "parts" = Some (JArr parts) ->
  Forall2 (fun p t => part_text p = Some t) parts texts ->
  call_gemini_result dumps describe (Body (JObj m)) = concat_strings texts.
Proof.
  intros Hm Hcand Hcontent Hparts.
  unfold call_gemini_result, response_text. cbn [get_field].
  rewrite Hm. cbn [default from_option id truthy subscript_0 get_field].
  rewrite Hcand. cbn [default from_option id].
  rewrite (truthy_obj_lookup _ _ _ Hcontent). cbn [get_field].
  rewrite Hcontent. cbn [default from_option id items].
  destruct (texts_of_parts parts texts 0 Hparts) as (ts & -> & ->). done.
Qed.

Lemma call_gemini_joins_parts_witness :
  call_gemini_result (fun _ => "") (fun _ => "")
    (Body (JObj {[ "candidates" :=
                     JArr [JObj {[ "content" :=
                                     JObj {[ "role" := JStr "model";
                                             "parts" :=
                                               JArr [JObj {[ "text" := JStr "Hello, " ]};
                                                     JObj {[ "thought" := JBool true ]};
                                                     JObj {[ "text" := JStr "world." ]}] ]};
                                   "finishReason" := JStr "STOP" ]};
                           JObj ∅] ]}))
  = "Hello, world.".
Proof.
  apply (call_gemini_joins_parts (fun _ => "") (fun _ => "") _
           {[ "content" :=
                JObj {[ "role" := JStr "model";
                        "parts" :=
                          JArr [JObj {[ "text" := JStr "Hello, " ]};
                                JObj {[ "thought" := JBool true ]};
                                JObj {[ "text" := JStr "world." ]}] ]};
              "finishReason" := JStr "STOP" ]}
           {[ "role" := JStr "model";
              "parts" :=
                JArr [JObj {[ "text" := JStr "Hello, " ]};
                      JObj {[ "thought" := JBool true ]};
                      JObj {[ "text" := JStr "world." ]}] ]}
           [JObj ∅]
           [JObj {[ "text" := JStr "Hello, " ]};
            JObj {[ "thought" := JBool true ]};
            JObj {[ "text" := JStr "world." ]}]
           ["Hello, "; ""; "world."]).
  - vm_compute. reflexivity.
  - vm_compute. reflexivity.
  - vm_compute. reflexivity.
  - repeat constructor.
Defined.

(** X23: no output.  When the decoded response is an object without
    candidates (no [candidates] field, or one that is empty or [null]), or
    its first candidate is an object without content (no [content] field,
    or an empty one), [call_gemini] returns the line
    [[No output or response blocked]] followed by the response itself. *)
Theorem call_gemini_no_output (dumps : json -> string)
    (describe : failure -> string) (m : gmap string json) :
  let cands := default (JArr []) (m !! "candidates") in
  truthy cands = false
  \/ (exists cand rest,
        cands = JArr (JObj cand :: rest)
        /\ truthy (default (JObj ∅) (cand !! "content")) = false) ->
  call_gemini_result dumps describe (Body (JObj m))
  = "[No output or response blocked]" +:+ NL +:+ dumps (JObj m).
Proof.
  intros cands H. unfold call_gemini_result, response_text. cbn [get_field].
  fold cands. destruct H as [->|(cand & rest & Hc & Hcontent)]; [done|].
  rewrite Hc. cbn [truthy subscript_0 get_field]. by rewrite Hcontent.
Qed.

Lemma call_gemini_no_output_witness :
  call_gemini_result (fun _ => "{...}") (fun _ => "")
    (Body (JObj {[ "promptFeedback" := JObj {[ "blockReason" := JStr "SAFETY" ]} ]}))
  = "[No output or response blocked]" +:+ NL +:+ "{...}".
Proof.
  apply (call_gemini_no_output (fun _ => "{...}") (fun _ => "")
           {[ "promptFeedback" := JObj {[ "blockReason" := JStr "SAFETY" ]} ]}).
  left. vm_compute. reflexivity.
Defined.
